(** * osdctl report analyzer: the organization / cluster / alert statistics

    A shallow embedding of [cmd/report/analyze] (the [org] sub-command): the
    three-level counter that [AddStatistic] maintains, the ranked [TopOrgs] /
    [TopClusters] queries, the percentage helpers, and the [Analyze] loop that
    feeds the counters from a report.

    Conventions.
    - Go's [int] is a 64-bit two's complement integer: a [Z] with the
      wrap-around of every arithmetic operation written out ([GoInt.wrap]).
    - Go's [float32] is IEEE 754 binary32, taken from the Standard Library's
      executable specification of floating-point arithmetic, instantiated at
      a 24-bit mantissa and maximal exponent 128.
    - A Go [map[string]V] is a [gmap string V].  The maps of this package are
      never aliased: every one is created by a [New...] constructor and
      reachable from exactly one parent, so value semantics is faithful.
    - Ranging over a Go map visits its entries in an order that the language
      leaves unspecified and that may change from one loop to the next; the
      order is therefore never computed from the map but quantified over.
    - A run-time panic (index or slice bounds out of range) is [None]. *)

From Stdlib Require Import ZArith Lia.
From Stdlib Require Import Floats.SpecFloat.
From stdpp Require Import base option list sorting strings gmap.

Local Open Scope Z_scope.

(** ** Machine integers *)

Module GoInt.

Definition MaxInt : Z := 2 ^ 63 - 1.
Definition MinInt : Z := - 2 ^ 63.

Definition InRange (z : Z) : Prop := MinInt ≤ z ≤ MaxInt.

(** The value a 64-bit signed register holds after computing [z]. *)
Definition wrap (z : Z) : Z := (z + 2 ^ 63) mod 2 ^ 64 - 2 ^ 63.

Definition add (a b : Z) : Z := wrap (a + b).
Definition sub (a b : Z) : Z := wrap (a - b).

(** [x++] *)
Definition incr (a : Z) : Z := wrap (a + 1).

End GoInt.

(** ** Single-precision floats *)

Module float32.

Definition prec : Z := 24.
Definition emax : Z := 128.

Abbreviation t := spec_float.

(** [float32(z)] for an [int] [z]: round to nearest, ties to even. *)
Definition of_int (z : Z) : t := binary_normalize prec emax z 0 false.

Definition div (x y : t) : t := SFdiv prec emax x y.
Definition mul (x y : t) : t := SFmul prec emax x y.

(** [x > y]; false as soon as one side is NaN. *)
Definition gt (x y : t) : bool := SFltb y x.
Definition eqb (x y : t) : bool := SFeqb x y.

Definition is_nan (x : t) : bool :=
  match x with S754_nan => true | _ => false end.

(** The untyped constant [0.3] converted to [float32]:
    10066330 * 2^-25 = 0.300000011920928955078125. *)
Definition c0_3 : t := S754_finite false 10066330 (-25).

(** The untyped constant [100] converted to [float32]. *)
Definition c100 : t := of_int 100.

End float32.

(** ** Identities handed over by OCM *)

Module Organization.
Record t := mk { ID : string; Name : string; EbsAccountID : string }.
End Organization.

Module Cluster.
Record t := mk { ID : string; Name : string }.
End Cluster.

(** ** ClusterStats: alert name -> count *)

Module ClusterStats.

Record t := mk {
  Cluster : Cluster.t;
  TotalAlerts : Z;
  Alerts : gmap string Z
}.

Definition NewClusterStats (cluster : Cluster.t) : t :=
  {| Cluster := cluster; TotalAlerts := 0; Alerts := ∅ |}.

Definition AddStatistic (c : t) (alertName : string) : t :=
  let total := GoInt.incr (TotalAlerts c) in
  match Alerts c !! alertName with
  | None =>
      {| Cluster := Cluster c; TotalAlerts := total;
         Alerts := <[alertName := 1]> (Alerts c) |}
  | Some n =>
      {| Cluster := Cluster c; TotalAlerts := total;
         Alerts := <[alertName := GoInt.incr n]> (Alerts c) |}
  end.

End ClusterStats.

(** ** The sorting routine of the Go standard library

    [sort.Slice] is not part of this package.  Its documentation promises a
    sorted rearrangement and explicitly no stability, so the queries below
    are stated for every routine with that contract. *)

Class StrictWeakOrder {A : Type} (less : A → A → bool) : Prop := {
  less_irrefl : ∀ x, less x x = false;
  less_trans : ∀ x y z, less x y = true → less y z = true → less x z = true;
  less_incomp_trans :
    ∀ x y z, less y x = false → less z y = false → less z x = false
}.

Class SliceSorter : Type := {
  sort_Slice : ∀ {A : Type}, (A → A → bool) → list A → list A;
  sort_Slice_Permutation :
    ∀ (A : Type) (less : A → A → bool) (l : list A), sort_Slice less l ≡ₚ l;
  sort_Slice_Sorted :
    ∀ (A : Type) (less : A → A → bool) (l : list A),
      StrictWeakOrder less →
      StronglySorted (λ x y, less y x = false) (sort_Slice less l)
}.

(** What [sort.Slice] runs on slices shorter than 12 elements: insertion
    sort, each element moved towards the front while it is [less] than its
    predecessor.  [sorted_rev] is the already sorted prefix, last element
    first. *)
Fixpoint insert_back {A : Type} (less : A → A → bool) (x : A)
    (sorted_rev : list A) : list A :=
  match sorted_rev with
  | [] => [x]
  | p :: ps => if less x p then p :: insert_back less x ps else x :: p :: ps
  end.

Definition insertionSort {A : Type} (less : A → A → bool) (l : list A) : list A :=
  reverse (foldl (λ acc x, insert_back less x acc) [] l).

(** [s[low:]] on a slice of length [len(s)]: panics unless
    [0 <= low <= len(s)]. *)
Definition slice_from {A : Type} (s : list A) (low : Z) : option (list A) :=
  if (0 <=? low) && (low <=? Z.of_nat (length s))
  then Some (drop (Z.to_nat low) s)
  else None.

(** The entries of a map in one of the orders a [range] loop may visit them. *)
Definition ranges_over {V : Type} (m : gmap string V)
    (visited : list (string * V)) : Prop :=
  visited ≡ₚ map_to_list m.

(** ** OrganizationStats: cluster ID -> ClusterStats *)

Module OrganizationStats.

Record t := mk {
  Organization : Organization.t;
  TotalAlerts : Z;
  Clusters : gmap string ClusterStats.t
}.

Definition NewOrganizationStats (org : Organization.t) : t :=
  {| Organization := org; TotalAlerts := 0; Clusters := ∅ |}.

Definition AddStatistic (o : t) (cluster : Cluster.t) (alert : string) : t :=
  let total := GoInt.incr (TotalAlerts o) in
  let clusterStats :=
    match Clusters o !! Cluster.ID cluster with
    | Some found => found
    | None => ClusterStats.NewClusterStats cluster
    end in
  let clusterStats := ClusterStats.AddStatistic clusterStats alert in
  {| Organization := Organization o; TotalAlerts := total;
     Clusters := <[Cluster.ID cluster := clusterStats]> (Clusters o) |}.

Definition less (a b : ClusterStats.t) : bool :=
  ClusterStats.TotalAlerts a <? ClusterStats.TotalAlerts b.

(** The body of [TopClusters] once the [range] loop has filled [stats]. *)
Definition TopClusters_of `{SliceSorter} (stats : list ClusterStats.t)
    (numClusters : Z) : option (list ClusterStats.t) :=
  let stats := sort_Slice less stats in
  slice_from stats (GoInt.sub (Z.of_nat (length stats)) numClusters).

(** [TopClusters o numClusters] may return [r] ([None]: it panics). *)
Definition TopClusters `{SliceSorter} (o : t) (numClusters : Z)
    (r : option (list ClusterStats.t)) : Prop :=
  ∃ visited,
    ranges_over (Clusters o) visited ∧ r = TopClusters_of visited.*2 numClusters.

End OrganizationStats.

(** ** OrganizationStatsList: organization ID -> OrganizationStats *)

Module OrganizationStatsList.

Record t := mk { Items : gmap string OrganizationStats.t }.

Definition NewOrganizationStatsList : t := {| Items := ∅ |}.

Definition AddStatistic (o : t) (org : Organization.t) (cluster : Cluster.t)
    (alert : string) : t :=
  let orgStats :=
    match Items o !! Organization.ID org with
    | Some found => found
    | None => OrganizationStats.NewOrganizationStats org
    end in
  let orgStats := OrganizationStats.AddStatistic orgStats cluster alert in
  {| Items := <[Organization.ID org := orgStats]> (Items o) |}.

Definition less (a b : OrganizationStats.t) : bool :=
  OrganizationStats.TotalAlerts a <? OrganizationStats.TotalAlerts b.

(** The body of [TopOrgs] once the [range] loop has filled [stats].  The
    slice expression cannot panic here: it is only reached with
    [0 < numOrgs <= len(stats)]. *)
Definition TopOrgs_of `{SliceSorter} (stats : list OrganizationStats.t)
    (numOrgs : Z) : option (list OrganizationStats.t) :=
  let stats := sort_Slice less stats in
  if (numOrgs <=? 0) || (numOrgs >? Z.of_nat (length stats))
  then Some stats
  else slice_from stats (GoInt.sub (Z.of_nat (length stats)) numOrgs).

(** [TopOrgs o numOrgs] may return [r] ([None]: it panics). *)
Definition TopOrgs `{SliceSorter} (o : t) (numOrgs : Z)
    (r : option (list OrganizationStats.t)) : Prop :=
  ∃ visited,
    ranges_over (Items o) visited ∧ r = TopOrgs_of visited.*2 numOrgs.

End OrganizationStatsList.

(** ** What the command prints, and what it asks of its collaborators *)

(** One constructor per format string of the package; the arguments are the
    values substituted into it (colour escapes left out). *)
Inductive Line : Type :=
| Plain (s : string)
| SkipSummary (skipped total : Z) (percent : float32.t)
| HighSkipPercentage
| OrgHeader (name id : string)
| EbsAccount (id : string)
| OrgTotals (total clusters : Z)
| OrgPercentOfTotal (percent : float32.t)
| OrgPercentOfAnalyzed (percent : float32.t)
| ClustersHeader
| ClusterHeader (name id : string)
| ClusterTotals (total symptoms : Z)
| ClusterPercentOfTotal (percent : float32.t)
| ClusterPercentOfAnalyzed (percent : float32.t)
| AlertsHeader
| AlertCount (alert : string) (count : Z)
| FailedHeader (err : string)
| FailedRead (err : string)
| FailedCluster (clusterID err : string)
| FailedOrgID (clusterID err : string)
| FailedOrg (orgID err : string)
| FailedMatchName (name pattern err : string)
| FailedMatchID (id pattern err : string).

Record Streams : Type := mkStreams { Out : list Line; ErrOut : list Line }.

Definition no_output : Streams := {| Out := []; ErrOut := [] |}.

Definition write (a b : Streams) : Streams :=
  {| Out := Out a ++ Out b; ErrOut := ErrOut a ++ ErrOut b |}.

(** A Go [(T, error)] result. *)
Inductive result (A : Type) : Type :=
| Ok (a : A)
| Error (err : string).
Arguments Ok {A} a.
Arguments Error {A} err.

(** What one call of [csv.Reader.Read] yields before the end of the file. *)
Inductive ReadResult : Type :=
| Record_ (fields : list string)
| ReadError (err : string).

(** Calls that leave the process. *)
Inductive Call : Type :=
| CallReadFile (path : string)
| CallCreateConnection
| CallRead
| CallGetCluster (clusterID : string)
| CallGetOrgIDFromCluster (cluster : Cluster.t)
| CallGetOrgFromID (orgID : string).

(** The collaborators of the analyzer, none of them part of this package:
    the file system and the CSV reader, OCM, the regular-expression engine
    and the two marshallers.  [ReadFile path] is the whole sequence of
    results that successive [Read] calls yield on the file, [io.EOF]
    excepted, which follows the last of them. *)
Class Collaborators : Type := {
  ReadFile : string → result (list ReadResult);
  CreateConnection : result unit;
  GetCluster : string → result Cluster.t;
  GetOrgIDFromCluster : Cluster.t → result string;
  GetOrgFromID : string → result Organization.t;
  MatchString : string → string → result bool
}.

(** ** OrgAnalyzer *)

Module OrgAnalyzer.

(** [Stats] is the embedded [OrganizationStatsList]; the embedded
    [IOStreams] are the streams of the process, threaded separately. *)
Record t := mk {
  Stats : OrganizationStatsList.t;
  SkippedEntries : Z;
  TotalEntries : Z;
  Output : string;
  NumOrgs : Z;
  SearchRegex : string
}.

(** [NewOrgAnalyzer], then the defaults of the three flags. *)
Definition NewOrgAnalyzer : t :=
  {| Stats := OrganizationStatsList.NewOrganizationStatsList;
     SkippedEntries := 0; TotalEntries := 0;
     Output := "long"; NumOrgs := 5; SearchRegex := "" |}.

(** The method promoted from the embedded list. *)
Definition AddStatistic (o : t) (org : Organization.t) (cluster : Cluster.t)
    (alert : string) : t :=
  {| Stats := OrganizationStatsList.AddStatistic (Stats o) org cluster alert;
     SkippedEntries := SkippedEntries o; TotalEntries := TotalEntries o;
     Output := Output o; NumOrgs := NumOrgs o; SearchRegex := SearchRegex o |}.

Definition validateAnalyzer (o : t) : option string :=
  if String.eqb (Output o) "yaml" then None
  else if String.eqb (Output o) "json" then None
  else if String.eqb (Output o) "short" then None
  else if String.eqb (Output o) "long" then None
  else Some "invalid output format provided with '--output/-o'. Valid options are one of 'short', 'long', 'yaml', or 'json'"%string.

Definition CalculateSkipPercentage (o : t) : float32.t :=
  float32.mul
    (float32.div (float32.of_int (SkippedEntries o))
                 (float32.of_int (TotalEntries o)))
    float32.c100.

Definition CalculatePercentageOfTotal (o : t) (count : Z) : float32.t :=
  float32.mul
    (float32.div (float32.of_int count) (float32.of_int (TotalEntries o)))
    float32.c100.

Definition CalculatePercentageOfAnalyzed (o : t) (count : Z) : float32.t :=
  let analyzedAlerts := GoInt.sub (TotalEntries o) (SkippedEntries o) in
  float32.mul
    (float32.div (float32.of_int count) (float32.of_int analyzedAlerts))
    float32.c100.

(** *** Analyze *)

(** The receiver of [Analyze] together with what the run has written and
    which calls it has made so far, latest last. *)
Record State := mkState {
  self : t;
  streams : Streams;
  calls : list Call
}.

Definition Errorln (msg : Line) (s : State) : State :=
  {| self := self s;
     streams := write (streams s) {| Out := []; ErrOut := [msg] |};
     calls := calls s |}.

Definition Println (msg : Line) (s : State) : State :=
  {| self := self s;
     streams := write (streams s) {| Out := [msg]; ErrOut := [] |};
     calls := calls s |}.

Definition called (c : Call) (s : State) : State :=
  {| self := self s; streams := streams s; calls := calls s ++ [c] |}.

Definition update (f : t → t) (s : State) : State :=
  {| self := f (self s); streams := streams s; calls := calls s |}.

(** [o.TotalEntries++] *)
Definition countEntry (o : t) : t :=
  {| Stats := Stats o; SkippedEntries := SkippedEntries o;
     TotalEntries := GoInt.incr (TotalEntries o);
     Output := Output o; NumOrgs := NumOrgs o; SearchRegex := SearchRegex o |}.

(** [o.SkippedEntries++] *)
Definition countSkipped (o : t) : t :=
  {| Stats := Stats o; SkippedEntries := GoInt.incr (SkippedEntries o);
     TotalEntries := TotalEntries o;
     Output := Output o; NumOrgs := NumOrgs o; SearchRegex := SearchRegex o |}.

(** [parseEntry]: both index expressions panic on a shorter record. *)
Definition parseEntry (entry : list string) : option (string * string) :=
  alert ← entry !! 6%nat;
  clusterID ← entry !! 5%nat;
  Some (clusterID, alert).

Section Analyze.
Context `{Collaborators}.

(** The part of the loop body guarded by [o.SearchRegex != ""], up to the
    closing [AddStatistic]. *)
Definition filterAndAdd (org : Organization.t) (cluster : Cluster.t)
    (alert : string) (s : State) : State :=
  let add := update (λ o, AddStatistic o org cluster alert) in
  let pattern := SearchRegex (self s) in
  if String.eqb pattern "" then add s
  else
    match MatchString pattern (Organization.Name org) with
    | Error err =>
        update countSkipped
          (Errorln (FailedMatchName (Organization.Name org) pattern err) s)
    | Ok matchName =>
        match MatchString pattern (Organization.ID org) with
        | Error err =>
            update countSkipped
              (Errorln (FailedMatchID (Organization.ID org) pattern err) s)
        | Ok matchID =>
            if negb matchName && negb matchID then s else add s
        end
    end.

(** One iteration of the [for] loop on a [Read] that did not hit the end of
    the file; every [continue] and the end of the body return the state the
    next iteration starts from. *)
Definition analyzeEntry (read : ReadResult) (s : State) : option State :=
  let s := update countEntry (called CallRead s) in
  match read with
  | ReadError err => Some (update countSkipped (Errorln (FailedRead err) s))
  | Record_ entry =>
      '(clusterID, alert) ← parseEntry entry;
      let s := called (CallGetCluster clusterID) s in
      match GetCluster clusterID with
      | Error err =>
          Some (update countSkipped (Errorln (FailedCluster clusterID err) s))
      | Ok cluster =>
          let s := called (CallGetOrgIDFromCluster cluster) s in
          match GetOrgIDFromCluster cluster with
          | Error err =>
              Some (update countSkipped
                      (Errorln (FailedOrgID (Cluster.ID cluster) err) s))
          | Ok orgID =>
              let s := called (CallGetOrgFromID orgID) s in
              match GetOrgFromID orgID with
              | Error err =>
                  Some (update countSkipped (Errorln (FailedOrg orgID err) s))
              | Ok org => Some (filterAndAdd org cluster alert s)
              end
          end
      end
  end.

(** The [for] loop over what is left of the report; the last [Read] hits
    the end of the file. *)
Fixpoint analyzeLoop (report : list ReadResult) (s : State) : option State :=
  match report with
  | [] => Some (called CallRead s)
  | read :: report => s ← analyzeEntry read s; analyzeLoop report s
  end.

(** The header entry is read and dropped; a failure to read it (the end of
    an empty file included) is only reported. *)
Definition skipHeader (report : list ReadResult) (s : State)
    : list ReadResult * State :=
  let s := called CallRead s in
  match report with
  | [] => ([], Errorln (FailedHeader "EOF") s)
  | ReadError err :: report => (report, Errorln (FailedHeader err) s)
  | Record_ _ :: report => (report, s)
  end.

(** [Analyze]: the returned error, if any, and the state it leaves. *)
Definition Analyze (reportFilePath : string) (s : State)
    : option (option string * State) :=
  let s := called (CallReadFile reportFilePath) s in
  match ReadFile reportFilePath with
  | Error err =>
      Some (Some ("failed to open report file '" +:+ reportFilePath
                  +:+ "': " +:+ err)%string, s)
  | Ok report =>
      let s := called CallCreateConnection s in
      match CreateConnection with
      | Error err => Some (Some ("failed to create ocm client: " +:+ err)%string, s)
      | Ok _ =>
          let '(report, s) := skipHeader report s in
          s ← analyzeLoop report s;
          Some (None, s)
      end
  end.

End Analyze.

(** *** Summarize *)

(** [yaml.Marshal] and [json.Marshal] on the analyzer. *)
Class Marshallers : Type := {
  yaml_Marshal : t → result string;
  json_Marshal : t → result string
}.

(** The four statements both textual summaries start with: two title
    lines, the skip count, and the warning on the error stream. *)
Definition summaryHead (o : t) : Streams :=
  let skipPercentage := CalculateSkipPercentage o in
  {| Out := [Plain "Results"; Plain "";
             SkipSummary (SkippedEntries o) (TotalEntries o) skipPercentage];
     ErrOut := if float32.gt skipPercentage float32.c0_3
               then [HighSkipPercentage] else [] |}.

(** The short format ends its second line with a newline of its own, which
    [Println] follows with another: an empty line. *)
Definition shortBlock (org : OrganizationStats.t) : list Line :=
  [ OrgHeader (Organization.Name (OrganizationStats.Organization org))
              (Organization.ID (OrganizationStats.Organization org));
    OrgTotals (OrganizationStats.TotalAlerts org)
              (Z.of_nat (size (OrganizationStats.Clusters org)));
    Plain "" ].

Definition alertLines (visited : list (string * Z)) : list Line :=
  (λ entry, AlertCount entry.1 entry.2) <$> visited.

(** What the inner loop prints for one cluster, for some visiting order of
    its alerts. *)
Definition clusterBlock (o : t) (cluster : ClusterStats.t)
    (lines : list Line) : Prop :=
  ∃ visited,
    ranges_over (ClusterStats.Alerts cluster) visited ∧
    lines =
      [ ClusterHeader (Cluster.Name (ClusterStats.Cluster cluster))
                      (Cluster.ID (ClusterStats.Cluster cluster));
        ClusterTotals (ClusterStats.TotalAlerts cluster)
                      (Z.of_nat (size (ClusterStats.Alerts cluster)));
        ClusterPercentOfTotal
          (CalculatePercentageOfTotal o (ClusterStats.TotalAlerts cluster));
        ClusterPercentOfAnalyzed
          (CalculatePercentageOfAnalyzed o (ClusterStats.TotalAlerts cluster));
        AlertsHeader ] ++ alertLines visited.

(** What the outer loop prints for one organization, for some visiting
    order of its clusters. *)
Definition longBlock (o : t) (org : OrganizationStats.t)
    (lines : list Line) : Prop :=
  ∃ visited blocks,
    ranges_over (OrganizationStats.Clusters org) visited ∧
    Forall2 (clusterBlock o) visited.*2 blocks ∧
    lines =
      [ OrgHeader (Organization.Name (OrganizationStats.Organization org))
                  (Organization.ID (OrganizationStats.Organization org));
        EbsAccount
          (Organization.EbsAccountID (OrganizationStats.Organization org));
        OrgTotals (OrganizationStats.TotalAlerts org)
                  (Z.of_nat (size (OrganizationStats.Clusters org)));
        OrgPercentOfTotal
          (CalculatePercentageOfTotal o (OrganizationStats.TotalAlerts org));
        OrgPercentOfAnalyzed
          (CalculatePercentageOfAnalyzed o (OrganizationStats.TotalAlerts org));
        ClustersHeader ] ++ concat blocks ++ [Plain ""].

Section Summarize.
Context `{SliceSorter} `{Marshallers}.

(** [printShortSummary o] may write [w] ([None]: it panics). *)
Definition printShortSummary (o : t) (w : option Streams) : Prop :=
  ∃ topOrgs,
    OrganizationStatsList.TopOrgs (Stats o) (NumOrgs o) topOrgs ∧
    w = orgs ← topOrgs;
        Some (write (summaryHead o)
                    {| Out := orgs ≫= shortBlock; ErrOut := [] |}).

(** [printLongSummary o] may write [w] ([None]: it panics). *)
Definition printLongSummary (o : t) (w : option Streams) : Prop :=
  ∃ topOrgs,
    OrganizationStatsList.TopOrgs (Stats o) (NumOrgs o) topOrgs ∧
    match topOrgs with
    | None => w = None
    | Some orgs =>
        ∃ blocks,
          Forall2 (longBlock o) orgs blocks ∧
          w = Some (write (summaryHead o)
                          {| Out := concat blocks; ErrOut := [] |})
    end.

Definition printYamlSummary (o : t) : option string * Streams :=
  match yaml_Marshal o with
  | Error err => (Some err, no_output)
  | Ok out => (None, {| Out := [Plain out]; ErrOut := [] |})
  end.

Definition printJsonSummary (o : t) : option string * Streams :=
  match json_Marshal o with
  | Error err => (Some err, no_output)
  | Ok out => (None, {| Out := [Plain out]; ErrOut := [] |})
  end.

(** [Summarize o] may return the error [r.1] after writing [r.2]
    ([None]: it panics). *)
Definition Summarize (o : t) (r : option (option string * Streams)) : Prop :=
  if String.eqb (Output o) "yaml" then
    r = Some (match printYamlSummary o with
              | (Some err, w) =>
                  (Some ("failed to print yaml summary: " +:+ err)%string, w)
              | (None, w) => (None, w)
              end)
  else if String.eqb (Output o) "json" then
    r = Some (match printJsonSummary o with
              | (Some err, w) =>
                  (Some ("failed to print json summary: " +:+ err)%string, w)
              | (None, w) => (None, w)
              end)
  else if String.eqb (Output o) "short" then
    ∃ w, printShortSummary o w ∧ r = (λ w, (None, w)) <$> w
  else if String.eqb (Output o) "long" then
    ∃ w, printLongSummary o w ∧ r = (λ w, (None, w)) <$> w
  else r = Some (Some "Invalid output format requested"%string, no_output).

End Summarize.

(** *** The command *)

Section RunE.
Context `{Collaborators} `{SliceSorter} `{Marshallers}.

(** The state the command starts in: nothing written, nothing called. *)
Definition start (analyzer : t) : State :=
  {| self := analyzer; streams := no_output; calls := [] |}.

(** The [RunE] closure of [NewCmdOrg] on the single argument that
    [cobra.ExactArgs(1)] lets through: [RunE analyzer path] may return the
    error [r.1] and leave the state [r.2] ([None]: it panics). *)
Definition RunE (analyzer : t) (path : string)
    (r : option (option string * State)) : Prop :=
  match validateAnalyzer analyzer with
  | Some err =>
      r = Some (Some ("invalid argument provided: " +:+ err)%string,
                start analyzer)
  | None =>
      match Analyze path (start analyzer) with
      | None => r = None
      | Some (Some err, s) =>
          r = Some (Some ("encountered unrecoverable error while analyzing file '"
                          +:+ path +:+ "': " +:+ err)%string, s)
      | Some (None, s) =>
          ∃ summary,
            Summarize (self s) summary ∧
            r = match summary with
                | None => None
                | Some (err, w) =>
                    Some (String.append "unable to summarize statistics: " <$> err,
                          {| self := self s; streams := write (streams s) w;
                             calls := calls s |})
                end
      end
  end.

End RunE.

End OrgAnalyzer.

(** * The promote command: finding a service and its current hash

    A shallow embedding of [cmd/promote/utils.go] and of the two functions
    of [cmd/promote/git] that decide what is promoted: [GetBaseDir] with
    its package-level cache, and [GetCurrentGitHashFromAppInterface]. *)

(** ** The functions of Go's [strings] package that the command uses *)

Module strings.

Fixpoint Contains (s substr : string) : bool :=
  String.prefix substr s ||
  match s with
  | EmptyString => false
  | String _ rest => Contains rest substr
  end.

Definition TrimPrefix (s prefix : string) : string :=
  if String.prefix prefix s
  then String.substring (String.length prefix)
                        (String.length s - String.length prefix) s
  else s.

Definition HasSuffix (s suffix : string) : bool :=
  (String.length suffix <=? String.length s)%nat &&
  String.eqb
    (String.substring (String.length s - String.length suffix)
                      (String.length suffix) s)
    suffix.

Definition TrimSuffix (s suffix : string) : string :=
  if HasSuffix s suffix
  then String.substring 0 (String.length s - String.length suffix) s
  else s.

End strings.

(** The operating system and Go's [path/filepath], none of them part of
    this repository.  [Getwd] is the pair that [os.Getwd] returns. *)
Class FilePath : Type := {
  Getwd : string * option string;
  Glob : string → result (list string);
  Join : list string → string;
  Base : string → string;
  Ext : string → string
}.

(** ** Package [git] *)

Module git.

(** [GetBaseDir] on the package-level variable [baseDir]: what it returns
    and what it leaves in the variable.  [getwd] is what [os.Getwd] would
    answer at this call. *)
Definition GetBaseDir (getwd : string * option string) (baseDir : string)
    : result string * string :=
  if String.eqb baseDir "" then
    match getwd with
    | (dir, Some err) =>
        (Error ("failed to determine current working directory: " +:+ err), dir)
    | (dir, None) => (Ok dir, dir)
    end
  else (Ok baseDir, baseDir).

Record Target := mkTarget {
  Namespace : gmap string string;
  Ref : string
}.

Record ResourceTemplate := mkResourceTemplate {
  URL : string;
  Targets : list Target
}.

Record Service := mkService {
  Name : string;
  ResourceTemplates : list ResourceTemplate
}.

(** [target.Namespace["$ref"]]: the empty string when the key is missing. *)
Definition namespaceRef (target : Target) : string :=
  default ""%string (Namespace target !! "$ref"%string).

(** The inner loop: the first target that satisfies the condition sets
    [currentGitHash] and ends the loop over this template's targets. *)
Fixpoint scanTargets (production : Target → bool) (targets : list Target)
    (currentGitHash : string) : string :=
  match targets with
  | [] => currentGitHash
  | target :: targets =>
      if production target then Ref target
      else scanTargets production targets currentGitHash
  end.

(** The outer loop, which goes on to the next template after the [break]. *)
Definition scanTemplates (production : Target → bool)
    (templates : list ResourceTemplate) : string :=
  foldl (λ currentGitHash resourceTemplate,
           scanTargets production (Targets resourceTemplate) currentGitHash)
        ""%string templates.

(** [GetCurrentGitHashFromAppInterface] on the service that
    [yaml.Unmarshal] read from the file; [None] is [log.Fatal], which ends
    the process when the file does not parse. *)
Definition GetCurrentGitHashFromAppInterface (unmarshalled : result Service)
    (serviceName : string) : option (result (string * string)) :=
  match unmarshalled with
  | Error _ => None
  | Ok service =>
      let currentGitHash :=
        if strings.Contains (Name service) "configuration-anomaly-detection"
        then
          scanTemplates
            (λ target,
               strings.Contains (namespaceRef target)
                 "configuration-anomaly-detection-production")
            (ResourceTemplates service)
        else if strings.Contains (Name service) "rhobs-rules-and-dashboards"
        then
          scanTemplates
            (λ target,
               strings.Contains (Name service) "rhobsp02ue1-production")
            (ResourceTemplates service)
        else
          scanTemplates
            (λ target, strings.Contains (namespaceRef target) "hivep")
            (ResourceTemplates service) in
      if String.eqb currentGitHash "" then
        Some (Error ("production namespace not found for service "
                     +:+ serviceName))
      else
        let serviceRepo :=
          match ResourceTemplates service with
          | first :: _ => URL first
          | [] => ""%string
          end in
        if String.eqb serviceRepo "" then
          Some (Error ("service repo not found for service " +:+ serviceName))
        else Some (Ok (currentGitHash, serviceRepo))
  end.

End git.

(** ** Package [promote] *)

Module promote.

Definition OSDSaasDir : string := "data/services/osd-operators/cicd/saas".
Definition BPSaasDir : string := "data/services/backplane/cicd/saas".
Definition CADSaasDir : string :=
  "data/services/configuration-anomaly-detection/cicd".

Section WithFilePath.
Context `{FilePath}.

(** The loop over the paths of one directory, and the loop over the
    directories, of [traverseServiceFiles]; [f] acts on a state of its
    own, as the closure handed to it acts on the variables it captures. *)
Fixpoint eachPath {S : Type} (f : string → S → option string * S)
    (filepaths : list string) (st : S) : option string * S :=
  match filepaths with
  | [] => (None, st)
  | filepath :: filepaths =>
      match f filepath st with
      | (Some err, st) => (Some err, st)
      | (None, st) => eachPath f filepaths st
      end
  end.

Fixpoint eachDir {S : Type} (baseDir : string)
    (f : string → S → option string * S) (saasDirs : list string) (st : S)
    : option string * S :=
  match saasDirs with
  | [] => (None, st)
  | dir :: saasDirs =>
      match Glob (Join [baseDir; dir; "saas-*"%string]) with
      | Error err => (Some err, st)
      | Ok filepaths =>
          match eachPath f filepaths st with
          | (Some err, st) => (Some err, st)
          | (None, st) => eachDir baseDir f saasDirs st
          end
      end
  end.

(** [traverseServiceFiles]: the error, the state of [f], and the
    package-level [baseDir] it leaves. *)
Definition traverseServiceFiles {S : Type} (saasDirs : list string)
    (f : string → S → option string * S) (st : S) (baseDir : string)
    : option string * S * string :=
  match git.GetBaseDir Getwd baseDir with
  | (Error err, baseDir) => (Some err, st, baseDir)
  | (Ok dir, baseDir) => (eachDir dir f saasDirs st, baseDir)
  end.

(** The loop of [GetServiceNames] over the directories; a failing [Glob]
    makes it return a nil slice. *)
Fixpoint namesIn (baseDir : string) (saaDirs : list string)
    (services : list string) : list string * option string :=
  match saaDirs with
  | [] => (services, None)
  | dir :: saaDirs =>
      match Glob (Join [baseDir; dir; "saas-*"%string]) with
      | Error err => ([], Some err)
      | Ok filepaths =>
          namesIn baseDir saaDirs
            (services ++
             ((λ filepath,
                 strings.TrimSuffix
                   (strings.TrimPrefix filepath
                      (baseDir +:+ "/" +:+ dir +:+ "/"))
                   ".yaml") <$> filepaths))
      end
  end.

(** [GetServiceNames]: the names, the error, and the [baseDir] left. *)
Definition GetServiceNames (saaDirs : list string) (baseDir : string)
    : list string * option string * string :=
  match git.GetBaseDir Getwd baseDir with
  | (Error err, baseDir) => ([], Some err, baseDir)
  | (Ok dir, baseDir) => (namesIn dir saaDirs [], baseDir)
  end.

(** The key under which [GetServiceFiles] files a path. *)
Definition serviceKey (path : string) : string :=
  let filename := Base path in
  strings.TrimSuffix filename (Ext filename).

(** [GetServiceFiles]: the map, the error, and the [baseDir] left.  The
    error that [traverseServiceFiles] returns is dropped. *)
Definition GetServiceFiles (saasDirs : list string) (baseDir : string)
    : gmap string string * option string * string :=
  let '(_, files, baseDir) :=
    traverseServiceFiles saasDirs
      (λ path files, (None, <[serviceKey path := path]> files))
      (∅ : gmap string string) baseDir in
  (files, None, baseDir).

(** [validateServiceName]: what it prints and the error it returns. *)
Fixpoint findService (services : list string) (serviceName : string)
    : list string * option string :=
  match services with
  | [] => ([], Some ("service " +:+ serviceName +:+ " not found"))
  | service :: services =>
      if String.eqb service serviceName
      then (["Service " +:+ serviceName +:+ " found"], None)
      else findService services serviceName
  end.

Definition validateServiceName (services : list string) (serviceName : string)
    : list string * option string :=
  let '(printed, err) := findService services serviceName in
  (("### Checking if service " +:+ serviceName +:+ " exists ###") :: printed,
   err).

(** [getSaasDir], which asks [GetServiceFiles] for no directory at all. *)
Definition getSaasDir (serviceName : string) (osd hcp : bool) (baseDir : string)
    : result string * string :=
  let '(serviceFiles, err, baseDir) := GetServiceFiles [] baseDir in
  let notFound :=
    Error ("saas directory for service " +:+ serviceName +:+ " not found") in
  match err with
  | Some err => (Error ("failed to retrieve service files: " +:+ err), baseDir)
  | None =>
      match serviceFiles !! serviceName with
      | Some saasDir =>
          if strings.Contains saasDir ".yaml" && osd then (Ok saasDir, baseDir)
          else if osd then (Ok (saasDir +:+ "/deploy.yaml"), baseDir)
          else if hcp then (Ok (saasDir +:+ "/hypershift-deploy.yaml"), baseDir)
          else (notFound, baseDir)
      | None => (notFound, baseDir)
      end
  end.

End WithFilePath.

End promote.

(** * Vocabulary of the properties *)

(** ** Sums over the values of a map *)

Definition sum_over {V : Type} (f : V → Z) (m : gmap string V) : Z :=
  map_fold (λ _ v acc, f v + acc) 0 m.

(** An ingestion: the triples handed to [AddStatistic], first call first,
    starting from the list [NewOrganizationStatsList] creates. *)
Definition ingest (triples : list (Organization.t * Cluster.t * string))
    : OrganizationStatsList.t :=
  foldl (λ o '(org, cluster, alert),
           OrganizationStatsList.AddStatistic o org cluster alert)
        OrganizationStatsList.NewOrganizationStatsList triples.

(** ** The totals of [AddStatistic], as predicates *)

(** The total equals the sum as a Go [int] computes it ... *)
Definition cluster_total_wraps (c : ClusterStats.t) : Prop :=
  ClusterStats.TotalAlerts c
  = GoInt.wrap (sum_over id (ClusterStats.Alerts c)).

Definition org_total_wraps (o : OrganizationStats.t) : Prop :=
  OrganizationStats.TotalAlerts o
  = GoInt.wrap (sum_over ClusterStats.TotalAlerts (OrganizationStats.Clusters o)).

(** ... and the sum as a number. *)
Definition cluster_total_exact (c : ClusterStats.t) : Prop :=
  ClusterStats.TotalAlerts c = sum_over id (ClusterStats.Alerts c).

Definition org_total_exact (o : OrganizationStats.t) : Prop :=
  OrganizationStats.TotalAlerts o
  = sum_over ClusterStats.TotalAlerts (OrganizationStats.Clusters o).

(** What [k] calls leave behind when no counter has wrapped around. *)
Definition cluster_counted (c : ClusterStats.t) : Prop :=
  cluster_total_exact c ∧
  ∀ alert n, ClusterStats.Alerts c !! alert = Some n → 0 ≤ n.

Definition org_counted (k : Z) (o : OrganizationStats.t) : Prop :=
  org_total_exact o ∧ OrganizationStats.TotalAlerts o ≤ k ∧
  ∀ id c, OrganizationStats.Clusters o !! id = Some c → cluster_counted c.

Definition list_wraps (l : OrganizationStatsList.t) : Prop :=
  ∀ id o, OrganizationStatsList.Items l !! id = Some o →
    org_total_wraps o ∧
    ∀ cid c, OrganizationStats.Clusters o !! cid = Some c → cluster_total_wraps c.

Definition list_counted (k : Z) (l : OrganizationStatsList.t) : Prop :=
  ∀ id o, OrganizationStatsList.Items l !! id = Some o → org_counted k o.

(** [o.Items[org].Clusters[cluster]] and
    [o.Items[org].Clusters[cluster].Alerts[alert]], when present. *)
Definition cluster_of (l : OrganizationStatsList.t) (org cluster : string)
    : option ClusterStats.t :=
  o ← OrganizationStatsList.Items l !! org;
  OrganizationStats.Clusters o !! cluster.

Definition count_of (l : OrganizationStatsList.t) (org cluster alert : string)
    : option Z :=
  c ← cluster_of l org cluster;
  ClusterStats.Alerts c !! alert.

Definition ascending (l : list OrganizationStats.t) : Prop :=
  StronglySorted
    (λ a b, OrganizationStats.TotalAlerts a ≤ OrganizationStats.TotalAlerts b) l.

(** The values a map holds, in the order [map_to_list] lists them. *)
Definition values {V : Type} (m : gmap string V) : list V := (map_to_list m).*2.

(** A Go map never holds more entries than an [int] counts. *)
Definition fits {V : Type} (m : gmap string V) : Prop :=
  Z.of_nat (size m) ≤ GoInt.MaxInt.

(** What [TopOrgs] does with the sorted slice. *)
Definition cut {A : Type} (sorted : list A) (numOrgs : Z) : option (list A) :=
  if (numOrgs <=? 0) || (numOrgs >? Z.of_nat (length sorted))
  then Some sorted
  else slice_from sorted (GoInt.sub (Z.of_nat (length sorted)) numOrgs).

(** The alert totals of a result of [TopOrgs], in the order returned. *)
Definition totals_of (r : option (list OrganizationStats.t)) : option (list Z) :=
  fmap (M:=option) (fmap (M:=list) OrganizationStats.TotalAlerts) r.


(** ** The scenario of the specification *)

Module Scenario.

Definition orgA : Organization.t := Organization.mk "orgA" "Organization A" "ebs-A".
Definition orgB : Organization.t := Organization.mk "orgB" "Organization B" "ebs-B".
Definition clusterX : Cluster.t := Cluster.mk "clusterX" "cluster-x".
Definition clusterY : Cluster.t := Cluster.mk "clusterY" "cluster-y".
Definition clusterZ : Cluster.t := Cluster.mk "clusterZ" "cluster-z".

Definition triples : list (Organization.t * Cluster.t * string) :=
  [ (orgA, clusterX, "AlertFoo"); (orgA, clusterX, "AlertFoo");
    (orgA, clusterY, "AlertBar"); (orgB, clusterZ, "AlertFoo") ]%string.

(** The analyzer after the four calls, with the two counters set from
    outside. *)
Definition analyzer : OrgAnalyzer.t :=
  {| OrgAnalyzer.Stats := ingest triples;
     OrgAnalyzer.SkippedEntries := 1; OrgAnalyzer.TotalEntries := 5;
     OrgAnalyzer.Output := "long"; OrgAnalyzer.NumOrgs := 5;
     OrgAnalyzer.SearchRegex := "" |}.

End Scenario.

(** Two organizations with one alert each. *)
Definition tied : OrganizationStatsList.t :=
  ingest [ (Scenario.orgA, Scenario.clusterX, "AlertFoo"%string);
           (Scenario.orgB, Scenario.clusterZ, "AlertFoo"%string) ].

(** One entry in a hundred skipped. *)
Definition one_percent_skipped : OrgAnalyzer.t :=
  {| OrgAnalyzer.Stats := OrganizationStatsList.NewOrganizationStatsList;
     OrgAnalyzer.SkippedEntries := 1; OrgAnalyzer.TotalEntries := 100;
     OrgAnalyzer.Output := "short"; OrgAnalyzer.NumOrgs := 5;
     OrgAnalyzer.SearchRegex := "" |}.

(** Collaborators for concrete runs: a report of a header and one row for
    [clusterX], which OCM resolves to [orgA], and a matcher that agrees
    with the regular-expression engine on the inputs used here: ["("]
    does not compile, and ["orgZ"] occurs neither in the name nor in the
    ID of [orgA]. *)
Module Stub.

Definition row : list string :=
  ["id"; "created"; "resolved"; "team"; "urgency"; "clusterX"; "AlertFoo"]%string.

Definition collaborators : Collaborators := {|
  ReadFile := λ _, Ok [Record_ row; Record_ row];
  CreateConnection := Ok ();
  GetCluster := λ id,
    if String.eqb id "clusterX" then Ok Scenario.clusterX
    else Error "cluster not found";
  GetOrgIDFromCluster := λ _, Ok "orgA"%string;
  GetOrgFromID := λ _, Ok Scenario.orgA;
  MatchString := λ pattern s,
    if String.eqb pattern "(" then Error "missing closing )"
    else Ok (String.eqb pattern s)
|}.

Definition marshallers : OrgAnalyzer.Marshallers := {|
  OrgAnalyzer.yaml_Marshal := λ _, Ok ""%string;
  OrgAnalyzer.json_Marshal := λ _, Ok ""%string
|}.

(** The analyzer as the flags leave it, [--search] and [--output] given. *)
Definition searching (pattern : string) : OrgAnalyzer.State :=
  OrgAnalyzer.start
    {| OrgAnalyzer.Stats := OrganizationStatsList.NewOrganizationStatsList;
       OrgAnalyzer.SkippedEntries := 0; OrgAnalyzer.TotalEntries := 0;
       OrgAnalyzer.Output := "long"; OrgAnalyzer.NumOrgs := 5;
       OrgAnalyzer.SearchRegex := pattern |}.

Definition with_output (output : string) : OrgAnalyzer.t :=
  {| OrgAnalyzer.Stats := OrganizationStatsList.NewOrganizationStatsList;
     OrgAnalyzer.SkippedEntries := 0; OrgAnalyzer.TotalEntries := 0;
     OrgAnalyzer.Output := output; OrgAnalyzer.NumOrgs := 5;
     OrgAnalyzer.SearchRegex := "" |}.

End Stub.

(** ** What an ingestion has been told *)

(** The calls of an ingestion made for an organization, for one of its
    clusters, and for one alert of that cluster. *)
Definition for_org (org : string) (t : Organization.t * Cluster.t * string) : Prop :=
  Organization.ID t.1.1 = org.

Definition for_cluster (org cluster : string)
    (t : Organization.t * Cluster.t * string) : Prop :=
  Organization.ID t.1.1 = org ∧ Cluster.ID t.1.2 = cluster.

Definition for_alert (org cluster alert : string)
    (t : Organization.t * Cluster.t * string) : Prop :=
  Organization.ID t.1.1 = org ∧ Cluster.ID t.1.2 = cluster ∧ t.2 = alert.

#[global] Instance for_org_dec org t : Decision (for_org org t).
Proof. unfold for_org. apply _. Defined.

#[global] Instance for_cluster_dec org cluster t : Decision (for_cluster org cluster t).
Proof. unfold for_cluster. apply _. Defined.

#[global] Instance for_alert_dec org cluster alert t :
  Decision (for_alert org cluster alert t).
Proof. unfold for_alert. apply _. Defined.

(** How many of the calls satisfy [P]. *)
Definition calls_made (P : Organization.t * Cluster.t * string → Prop)
    `{!∀ t, Decision (P t)}
    (triples : list (Organization.t * Cluster.t * string)) : Z :=
  Z.of_nat (length (filter P triples)).

(** The counter that [n] increments leave behind: none at all without a
    call, else [n] as a Go [int]. *)
Definition counter_after (n : Z) : option Z :=
  if decide (n = 0) then None else Some (GoInt.wrap n).

(** The counter that [n] further increments make of [old]. *)
Definition counter_onto (old : option Z) (n : Z) : option Z :=
  if decide (n = 0) then old else Some (GoInt.wrap (default 0 old + n)).

(** Further calls of [AddStatistic] on a list that may already hold
    statistics. *)
Definition ingest_onto (l : OrganizationStatsList.t)
    (triples : list (Organization.t * Cluster.t * string))
    : OrganizationStatsList.t :=
  foldl (λ o '(org, cluster, alert),
           OrganizationStatsList.AddStatistic o org cluster alert)
        l triples.

(** [o.Items[org].TotalAlerts] and
    [o.Items[org].Clusters[cluster].TotalAlerts], when present. *)
Definition org_total_of (l : OrganizationStatsList.t) (org : string) : option Z :=
  OrganizationStats.TotalAlerts <$> OrganizationStatsList.Items l !! org.

Definition cluster_total_of (l : OrganizationStatsList.t) (org cluster : string)
    : option Z :=
  ClusterStats.TotalAlerts <$> cluster_of l org cluster.

(** ** What a run of [Analyze] has met *)

(** The alerts the statistics hold: the totals of all organizations. *)
Definition recorded (o : OrgAnalyzer.t) : Z :=
  sum_over OrganizationStats.TotalAlerts
           (OrganizationStatsList.Items (OrgAnalyzer.Stats o)).

(** No more alerts recorded and entries skipped than entries read. *)
Definition accounted (o : OrgAnalyzer.t) : Prop :=
  (∀ id st, OrganizationStatsList.Items (OrgAnalyzer.Stats o) !! id = Some st →
            0 ≤ OrganizationStats.TotalAlerts st) ∧
  0 ≤ OrgAnalyzer.SkippedEntries o ∧
  recorded o + OrgAnalyzer.SkippedEntries o ≤ OrgAnalyzer.TotalEntries o.

(** A record too short for [parseEntry], which reads its sixth and seventh
    fields. *)
Definition short_record (read : ReadResult) : Prop :=
  match read with
  | Record_ entry => (length entry < 7)%nat
  | ReadError _ => False
  end.

#[global] Instance short_record_dec read : Decision (short_record read).
Proof. destruct read; simpl; apply _. Defined.

(** How many organizations a summary shows when [numOrgs] are asked for
    and [count] exist. *)
Definition shown (count numOrgs : Z) : Z :=
  if (numOrgs <=? 0) || (numOrgs >? count) then count else numOrgs.

(** ** Vocabulary for the promote command *)

(** The condition under which [GetCurrentGitHashFromAppInterface] takes a
    target, by the name of the service. *)
Definition production (service : git.Service) (target : git.Target) : bool :=
  if strings.Contains (git.Name service) "configuration-anomaly-detection" then
    strings.Contains (git.namespaceRef target)
                     "configuration-anomaly-detection-production"
  else if strings.Contains (git.Name service) "rhobs-rules-and-dashboards" then
    strings.Contains (git.Name service) "rhobsp02ue1-production"
  else strings.Contains (git.namespaceRef target) "hivep".

(** The first target of a template that satisfies a condition. *)
Definition first_target (cond : git.Target → bool)
    (template : git.ResourceTemplate) : option git.Target :=
  head (filter (λ target, cond target = true) (git.Targets template)).

(** The paths that the traversal of the directories visits: those of every
    directory up to the first one that [Glob] fails on. *)
Fixpoint globbed `{FilePath} (baseDir : string) (saasDirs : list string)
    : list string :=
  match saasDirs with
  | [] => []
  | dir :: saasDirs =>
      match Glob (Join [baseDir; dir; "saas-*"%string]) with
      | Error _ => []
      | Ok filepaths => filepaths ++ globbed baseDir saasDirs
      end
  end.

(** What the closure of [GetServiceFiles] does to the map at one path. *)
Definition file_service `{FilePath} (files : gmap string string)
    (path : string) : gmap string string :=
  <[promote.serviceKey path := path]> files.

(** A file system for concrete runs: the OSD and the backplane directory
    each hold a file of the service [saas-foo], and a directory named
    by a malformed pattern makes [Glob] fail. *)
Module StubFS.

Fixpoint basename (path : string) : string :=
  match path with
  | EmptyString => EmptyString
  | String c rest =>
      if strings.Contains rest "/" then basename rest
      else if Ascii.eqb c (Ascii.ascii_of_nat 47) then rest
      else path
  end.

Definition filepath : FilePath := {|
  Getwd := ("/app-interface"%string, None);
  Glob := λ pattern,
    if String.eqb pattern ("/app-interface/" +:+ promote.OSDSaasDir +:+ "/saas-*")
    then Ok ["/app-interface/" +:+ promote.OSDSaasDir +:+ "/saas-foo.yaml"]
    else if String.eqb pattern ("/app-interface/" +:+ promote.BPSaasDir +:+ "/saas-*")
    then Ok ["/app-interface/" +:+ promote.BPSaasDir +:+ "/saas-bar.yaml";
             "/app-interface/" +:+ promote.BPSaasDir +:+ "/saas-foo.yaml"]
    else if String.eqb pattern "/app-interface/[/saas-*"
    then Error "syntax error in pattern"
    else Ok [];
  Join := λ parts,
    fold_right (λ a b, if String.eqb b "" then a else a +:+ "/" +:+ b)
               ""%string parts;
  Base := basename;
  Ext := λ path,
    if strings.HasSuffix path ".yaml" then ".yaml"%string else ""%string
|}.

Definition hive : git.Target :=
  git.mkTarget {[ "$ref"%string := "/services/osd-operators/namespaces/hivep01ue1/cluster-scope.yml"%string ]}
               "0123abc".

Definition stage : git.Target :=
  git.mkTarget {[ "$ref"%string := "/services/osd-operators/namespaces/hives02ue1/cluster-scope.yml"%string ]}
               "master".

Definition service : git.Service :=
  git.mkService "saas-foo"
    [ git.mkResourceTemplate "https://github.com/openshift/foo"
                             [stage; hive] ].

End StubFS.

(** A service of the RHOBS rules whose only target is a production one. *)
Definition rhobs : git.Service :=
  git.mkService "saas-rhobs-rules-and-dashboards"
    [ git.mkResourceTemplate "https://github.com/rhobs/configuration"
                             [StubFS.hive] ].

(** Collaborators for a run in which the report cannot be opened. *)
Module Offline.

Definition collaborators : Collaborators := {|
  ReadFile := λ _, Error "no such file or directory";
  CreateConnection := Error "no OCM token";
  GetCluster := λ _, Error "cluster not found";
  GetOrgIDFromCluster := λ _, Error "no subscription";
  GetOrgFromID := λ _, Error "organization not found";
  MatchString := λ _ _, Ok false
|}.

End Offline.

(** * Properties *)

(** ** Insertion sort meets the contract of [sort.Slice] *)

Section insertion_sort.
Context {A : Type} (less : A → A → bool).

Lemma insert_back_Permutation x acc : insert_back less x acc ≡ₚ x :: acc.
Proof.
  induction acc as [|p ps IH]; simpl; [done|].
  destruct (less x p); [|done].
  by rewrite IH, Permutation_swap.
Qed.

Lemma insertionSort_Permutation l : insertionSort less l ≡ₚ l.
Proof.
  unfold insertionSort. rewrite reverse_Permutation.
  assert (∀ acc, foldl (λ acc x, insert_back less x acc) acc l ≡ₚ l ++ acc)
    as Hgen; [|by rewrite Hgen, app_nil_r].
  induction l as [|x l IH]; intros acc; simpl; [done|].
  by rewrite IH, insert_back_Permutation, Permutation_middle.
Qed.

Context `{!StrictWeakOrder less}.

Lemma less_asym x y : less x y = true → less y x = false.
Proof.
  intros Hxy. destruct (less y x) eqn:Hyx; [|done].
  pose proof (less_trans x y x Hxy Hyx) as Hxx.
  by rewrite less_irrefl in Hxx.
Qed.

(** The prefix sorted so far is kept with its largest element first. *)
Lemma insert_back_Sorted x acc :
  StronglySorted (λ a b, less a b = false) acc →
  StronglySorted (λ a b, less a b = false) (insert_back less x acc).
Proof.
  induction 1 as [|p ps Hps IH Hp]; simpl.
  { repeat constructor. }
  destruct (less x p) eqn:Hxp.
  - constructor; [done|].
    rewrite insert_back_Permutation. constructor; [|done].
    by apply less_asym.
  - constructor; [by constructor|].
    constructor; [done|].
    eapply Forall_impl; [exact Hp|]. intros q Hpq. simpl in Hpq.
    by apply (less_incomp_trans q p x).
Qed.

Lemma StronglySorted_reverse_flip (R : relation A) l :
  StronglySorted R l → StronglySorted (flip R) (reverse l).
Proof.
  induction 1 as [|x l Hl IH Hx]; [constructor|].
  rewrite reverse_cons. apply StronglySorted_app_2; [|done|repeat constructor].
  intros y x' Hy Hx'. apply list_elem_of_singleton in Hx'. subst x'.
  rewrite elem_of_reverse in Hy. rewrite Forall_forall in Hx.
  unfold flip. by apply Hx.
Qed.

Lemma insertionSort_Sorted l :
  StronglySorted (λ a b, less b a = false) (insertionSort less l).
Proof.
  unfold insertionSort.
  apply (StronglySorted_reverse_flip (λ a b, less a b = false)).
  assert (∀ acc, StronglySorted (λ a b, less a b = false) acc →
            StronglySorted (λ a b, less a b = false)
              (foldl (λ acc x, insert_back less x acc) acc l)) as Hgen.
  { induction l as [|x l IH]; intros acc Hacc; simpl; [done|].
    by apply IH, insert_back_Sorted. }
  apply Hgen. constructor.
Qed.

End insertion_sort.

(** The routine that the concrete runs below sort with. *)
Definition insertion_sorter : SliceSorter := {|
  sort_Slice := @insertionSort;
  sort_Slice_Permutation := @insertionSort_Permutation;
  sort_Slice_Sorted := λ A less l H, @insertionSort_Sorted A less H l
|}.

(** ** Wrap-around *)

Lemma wrap_id z : GoInt.InRange z → GoInt.wrap z = z.
Proof.
  unfold GoInt.InRange, GoInt.MinInt, GoInt.MaxInt, GoInt.wrap. intros Hz.
  rewrite Z.mod_small; lia.
Qed.

Lemma wrap_InRange z : GoInt.InRange (GoInt.wrap z).
Proof.
  unfold GoInt.InRange, GoInt.MinInt, GoInt.MaxInt, GoInt.wrap.
  pose proof (Z.mod_pos_bound (z + 2 ^ 63) (2 ^ 64)). lia.
Qed.

Lemma wrap_add_wrap_l a b : GoInt.wrap (GoInt.wrap a + b) = GoInt.wrap (a + b).
Proof.
  unfold GoInt.wrap. f_equal.
  replace ((a + 2 ^ 63) mod 2 ^ 64 - 2 ^ 63 + b + 2 ^ 63)
    with ((a + 2 ^ 63) mod 2 ^ 64 + b) by lia.
  rewrite Zplus_mod_idemp_l. f_equal. lia.
Qed.

Lemma wrap_add_wrap_r a b : GoInt.wrap (a + GoInt.wrap b) = GoInt.wrap (a + b).
Proof. by rewrite (Z.add_comm a), wrap_add_wrap_l, Z.add_comm. Qed.

Lemma incr_exact n : 0 ≤ n < GoInt.MaxInt → GoInt.incr n = n + 1.
Proof.
  intros Hn. apply wrap_id. unfold GoInt.InRange, GoInt.MinInt in *.
  unfold GoInt.MaxInt in *. lia.
Qed.

(** ** Sums over the values of a map: lemmas *)

Section sums.
Context {V : Type} (f : V → Z).
Implicit Types m : gmap string V.

Lemma sum_over_empty : sum_over f (∅ : gmap string V) = 0.
Proof. unfold sum_over. by rewrite map_fold_empty. Qed.

Lemma sum_over_insert_fresh m k v :
  m !! k = None → sum_over f (<[k:=v]> m) = f v + sum_over f m.
Proof.
  intros Hk. unfold sum_over.
  rewrite map_fold_insert_L; [done| |done]. intros; lia.
Qed.

Lemma sum_over_delete m k w :
  m !! k = Some w → sum_over f m = f w + sum_over f (delete k m).
Proof.
  intros Hk. unfold sum_over.
  rewrite (map_fold_delete_L _ _ k w m); [done| |done]. intros; lia.
Qed.

Lemma sum_over_insert_present m k v w :
  m !! k = Some w → sum_over f (<[k:=v]> m) = f v + (sum_over f m - f w).
Proof.
  intros Hk. rewrite <-insert_delete_eq.
  rewrite sum_over_insert_fresh by apply lookup_delete_eq.
  rewrite (sum_over_delete m k w Hk). lia.
Qed.

Lemma sum_over_nonneg m :
  (∀ k v, m !! k = Some v → 0 ≤ f v) → 0 ≤ sum_over f m.
Proof.
  induction m as [|k v m Hk IH] using map_ind; intros Hpos.
  - by rewrite sum_over_empty.
  - rewrite sum_over_insert_fresh by done.
    assert (0 ≤ f v) by (apply (Hpos k); by rewrite lookup_insert_eq).
    assert (0 ≤ sum_over f m); [|lia].
    apply IH. intros k' v' Hk'. apply (Hpos k').
    rewrite lookup_insert_ne; [done|]. intros ->. by rewrite Hk in Hk'.
Qed.

(** No summand of a sum of non-negative numbers exceeds the sum. *)
Lemma sum_over_bounds m k w :
  (∀ k v, m !! k = Some v → 0 ≤ f v) → m !! k = Some w → f w ≤ sum_over f m.
Proof.
  intros Hpos Hk. rewrite (sum_over_delete m k w Hk).
  assert (0 ≤ sum_over f (delete k m)); [|lia].
  apply sum_over_nonneg. intros k' v' Hk'.
  apply lookup_delete_Some in Hk' as [_ Hk']. by apply (Hpos k').
Qed.

End sums.

(** ** Facts on [float32] arithmetic *)

Lemma digits2_pos_bounds p :
  2 ^ (Z.pos (digits2_pos p) - 1) ≤ Z.pos p < 2 ^ Z.pos (digits2_pos p).
Proof.
  induction p as [p IH|p IH|]; simpl digits2_pos;
    rewrite ?Pos2Z.inj_succ.
  - replace (Z.succ (Z.pos (digits2_pos p)) - 1)
      with (Z.succ (Z.pos (digits2_pos p) - 1)) by lia.
    rewrite !Z.pow_succ_r by lia. lia.
  - replace (Z.succ (Z.pos (digits2_pos p)) - 1)
      with (Z.succ (Z.pos (digits2_pos p) - 1)) by lia.
    rewrite !Z.pow_succ_r by lia. lia.
  - simpl. lia.
Qed.

Lemma Zdigits2_bounds m :
  0 < m → 2 ^ (Zdigits2 m - 1) ≤ m < 2 ^ Zdigits2 m.
Proof. destruct m; try lia. intros _. apply digits2_pos_bounds. Qed.

Lemma Zdigits2_pos m : 0 < m → 0 < Zdigits2 m.
Proof. destruct m; simpl; lia. Qed.

(** The number of digits is determined by the enclosing powers of two. *)
Lemma Zdigits2_unique m d : 2 ^ (d - 1) ≤ m < 2 ^ d → 0 < d → Zdigits2 m = d.
Proof.
  intros Hm Hd. assert (0 < m) as Hpos by (pose proof (Z.pow_pos_nonneg 2 (d - 1)); lia).
  pose proof (Zdigits2_bounds m Hpos) as Hb. pose proof (Zdigits2_pos m Hpos).
  assert (Zdigits2 m - 1 < d) by (apply (Z.pow_lt_mono_r_iff 2); lia).
  assert (d - 1 < Zdigits2 m) by (apply (Z.pow_lt_mono_r_iff 2); lia).
  lia.
Qed.

Lemma shr_1_m mrs : 0 ≤ shr_m mrs → shr_m (shr_1 mrs) = shr_m mrs / 2.
Proof.
  destruct mrs as [m r s]. simpl. intros Hm.
  destruct m as [|[p|p|]|p]; simpl; try lia; try reflexivity.
  - apply Z.div_unique with (r := 1); lia.
  - apply Z.div_unique with (r := 0); lia.
Qed.

Lemma iter_pos_shr_1_m n mrs :
  0 ≤ shr_m mrs → shr_m (SpecFloat.iter_pos shr_1 n mrs) = shr_m mrs / 2 ^ Z.pos n.
Proof.
  revert mrs. induction n as [n IH|n IH|]; intros mrs Hm; simpl SpecFloat.iter_pos.
  - assert (0 ≤ shr_m (shr_1 mrs)) by (rewrite shr_1_m by done; apply Z.div_pos; lia).
    assert (0 ≤ shr_m (SpecFloat.iter_pos shr_1 n (shr_1 mrs)))
      by (rewrite IH by done; apply Z.div_pos; lia).
    rewrite IH, IH, shr_1_m by done.
    rewrite !Z.div_div by lia. f_equal.
    rewrite Pos2Z.inj_xI, <-Z.pow_add_r, <-Z.pow_succ_r by lia. f_equal. lia.
  - assert (0 ≤ shr_m (SpecFloat.iter_pos shr_1 n mrs))
      by (rewrite IH by done; apply Z.div_pos; lia).
    rewrite IH, IH by done.
    rewrite !Z.div_div by lia. f_equal.
    rewrite Pos2Z.inj_xO, <-Z.pow_add_r by lia. f_equal. lia.
  - by rewrite shr_1_m.
Qed.

Lemma Zdigits2_mono m1 m2 : 0 < m1 ≤ m2 → Zdigits2 m1 ≤ Zdigits2 m2.
Proof.
  intros Hm.
  pose proof (Zdigits2_bounds m1 ltac:(lia)).
  pose proof (Zdigits2_bounds m2 ltac:(lia)).
  pose proof (Zdigits2_pos m2 ltac:(lia)).
  assert (Zdigits2 m1 - 1 < Zdigits2 m2); [|lia].
  apply (Z.pow_lt_mono_r_iff 2); lia.
Qed.

Lemma shr_record_of_loc_m m l : shr_m (shr_record_of_loc m l) = m.
Proof. by destruct l as [|[]]. Qed.

(** Shifting to the canonical exponent keeps at most 24 digits, none of
    them lost to the exponent floor. *)
Lemma shr_fexp_spec m e l :
  0 < m → -125 ≤ Zdigits2 m + e →
  let r := shr_fexp float32.prec float32.emax m e l in
  0 < shr_m r.1 < 2 ^ 24 ∧
  Zdigits2 (shr_m r.1) + r.2 = Zdigits2 m + e ∧
  r.2 = Z.max e (e + Zdigits2 m - 24).
Proof.
  intros Hm Hfloor. pose proof (Zdigits2_bounds m Hm) as Hb.
  pose proof (Zdigits2_pos m Hm) as Hd.
  unfold shr_fexp, fexp, emin, float32.prec, float32.emax, shr.
  replace (Z.max (Zdigits2 m + e - 24) (3 - 128 - 24) - e)
    with (Zdigits2 m - 24) by lia.
  destruct (Zdigits2 m - 24) as [|k|k] eqn:Hk; simpl.
  - rewrite shr_record_of_loc_m. repeat split; try lia.
    replace (Zdigits2 m) with 24 in Hb by lia. lia.
  - rewrite iter_pos_shr_1_m by (rewrite shr_record_of_loc_m; lia).
    rewrite shr_record_of_loc_m.
    assert (2 ^ Zdigits2 m = 2 ^ 24 * 2 ^ Z.pos k) as Hhi
      by (rewrite <-Z.pow_add_r by lia; f_equal; lia).
    assert (2 ^ (Zdigits2 m - 1) = 2 ^ 23 * 2 ^ Z.pos k) as Hlo
      by (rewrite <-Z.pow_add_r by lia; f_equal; lia).
    assert (0 < 2 ^ Z.pos k) by (apply Z.pow_pos_nonneg; lia).
    assert (2 ^ 23 ≤ m / 2 ^ Z.pos k)
      by (apply Z.div_le_lower_bound; lia).
    assert (m / 2 ^ Z.pos k < 2 ^ 24)
      by (apply Z.div_lt_upper_bound; lia).
    split; [lia|]. split; [|lia].
    rewrite (Zdigits2_unique (m / 2 ^ Z.pos k) 24); lia.
  - rewrite shr_record_of_loc_m. repeat split; try lia.
    apply Z.lt_le_trans with (2 ^ Zdigits2 m); [lia|].
    apply Z.pow_le_mono_r; lia.
Qed.

Lemma round_nearest_even_bounds m l :
  m ≤ round_nearest_even m l ≤ m + 1.
Proof.
  unfold round_nearest_even. destruct l as [|[]]; try lia.
  destruct (Z.even m); lia.
Qed.

(** Rounding a positive number whose magnitude lies in the range of
    normal and subnormal [float32] values gives a finite, non-zero value. *)
Lemma binary_round_aux_finite s m e l :
  0 < m → -125 ≤ Zdigits2 m + e → Zdigits2 m + e ≤ 127 → e ≤ 103 →
  ∃ m' e', binary_round_aux float32.prec float32.emax s m e l
           = S754_finite s m' e'.
Proof.
  intros Hm Hfloor Hceil He. unfold binary_round_aux.
  pose proof (shr_fexp_spec m e l Hm Hfloor) as H1. simpl in H1.
  destruct (shr_fexp float32.prec float32.emax m e l) as [mrs1 e1].
  simpl in H1. destruct H1 as (Hm1 & Hd1 & He1).
  pose proof (round_nearest_even_bounds (shr_m mrs1) (loc_of_shr_record mrs1))
    as Hr.
  set (m2 := round_nearest_even (shr_m mrs1) (loc_of_shr_record mrs1)) in *.
  assert (0 < m2) as Hm2 by lia.
  pose proof (Zdigits2_mono (shr_m mrs1) m2 ltac:(lia)) as Hmono.
  assert (Zdigits2 m2 ≤ 25) as Hd2.
  { pose proof (Zdigits2_bounds m2 Hm2).
    assert (Zdigits2 m2 - 1 < 25); [|lia].
    apply (Z.pow_lt_mono_r_iff 2); lia. }
  pose proof (shr_fexp_spec m2 e1 loc_Exact Hm2 ltac:(lia)) as H3.
  simpl in H3.
  destruct (shr_fexp float32.prec float32.emax m2 e1 loc_Exact) as [mrs3 e3].
  simpl in H3. destruct H3 as (Hm3 & _ & He3).
  destruct (shr_m mrs3) as [|m3|m3]; try lia.
  unfold float32.emax, float32.prec.
  rewrite (proj2 (Z.leb_le e3 (128 - 24))) by lia. eauto.
Qed.

Section any_format.
Variables prec emax : Z.

Lemma shr_fexp_nonneg m e l : 0 ≤ m → 0 ≤ shr_m (shr_fexp prec emax m e l).1.
Proof.
  intros Hm. unfold shr_fexp, shr.
  destruct (fexp prec emax (Zdigits2 m + e) - e) as [|k|k]; simpl;
    rewrite ?iter_pos_shr_1_m, shr_record_of_loc_m;
    rewrite ?shr_record_of_loc_m; try lia.
  apply Z.div_pos; [lia|]. apply Z.pow_pos_nonneg; lia.
Qed.

(** Rounding never invents a NaN. *)
Lemma binary_round_aux_not_nan s m e l :
  0 ≤ m → binary_round_aux prec emax s m e l ≠ S754_nan.
Proof.
  intros Hm. unfold binary_round_aux.
  pose proof (shr_fexp_nonneg m e l Hm) as H1.
  destruct (shr_fexp prec emax m e l) as [mrs1 e1]. simpl in H1.
  pose proof (round_nearest_even_bounds (shr_m mrs1) (loc_of_shr_record mrs1))
    as Hr.
  pose proof (shr_fexp_nonneg
                (round_nearest_even (shr_m mrs1) (loc_of_shr_record mrs1))
                e1 loc_Exact ltac:(lia)) as H3.
  destruct (shr_fexp prec emax _ e1 loc_Exact) as [mrs3 e3]. simpl in H3.
  destruct (shr_m mrs3); [done| |lia].
  by destruct (e3 <=? emax - prec).
Qed.

Lemma SFdiv_core_binary_nonneg m1 e1 m2 e2 :
  0 < m1 → 0 < m2 → 0 ≤ (SFdiv_core_binary prec emax m1 e1 m2 e2).1.1.
Proof.
  intros Hm1 Hm2. unfold SFdiv_core_binary.
  set (s := e1 - e2 - _).
  set (m' := match s with Z.pos _ => Z.shiftl m1 s | 0 => m1 | Z.neg _ => 0 end).
  assert (0 ≤ m') as Hm'.
  { unfold m'. destruct s; [lia| |lia]. apply Z.shiftl_nonneg. lia. }
  pose proof (Z_div_mod m' m2 ltac:(lia)) as Hdiv.
  destruct (Z.div_eucl m' m2) as [q r]. simpl. nia.
Qed.

Lemma SFdiv_not_nan x y :
  SFdiv prec emax x y = S754_nan →
  x = S754_nan ∨ y = S754_nan ∨
  (∃ sx sy, x = S754_infinity sx ∧ y = S754_infinity sy) ∨
  (∃ sx sy, x = S754_zero sx ∧ y = S754_zero sy).
Proof.
  destruct x as [sx|sx| |sx mx ex], y as [sy|sy| |sy my ey]; simpl;
    try discriminate; eauto 10.
  pose proof (SFdiv_core_binary_nonneg (Z.pos mx) ex (Z.pos my) ey
                ltac:(lia) ltac:(lia)) as Hq.
  destruct (SFdiv_core_binary prec emax (Z.pos mx) ex (Z.pos my) ey)
    as [[mz ez] lz]. simpl in Hq.
  intros Hnan. by apply binary_round_aux_not_nan in Hnan.
Qed.

Lemma SFmul_not_nan x y :
  SFmul prec emax x y = S754_nan →
  x = S754_nan ∨ y = S754_nan ∨
  (∃ sx sy, x = S754_infinity sx ∧ y = S754_zero sy) ∨
  (∃ sx sy, x = S754_zero sx ∧ y = S754_infinity sy).
Proof.
  destruct x as [sx|sx| |sx mx ex], y as [sy|sy| |sy my ey]; simpl;
    try discriminate; eauto 10.
  intros Hnan. apply binary_round_aux_not_nan in Hnan; [done|lia].
Qed.

End any_format.

Lemma digits2_pos_iter_xO p k :
  Z.pos (digits2_pos (Pos.iter xO p k)) = Z.pos (digits2_pos p) + Z.pos k.
Proof.
  induction k as [|k IH] using Pos.peano_ind.
  - simpl. lia.
  - rewrite Pos.iter_succ. simpl digits2_pos. lia.
Qed.

Lemma shl_align_spec mx ex ex' :
  let r := shl_align mx ex ex' in
  Zdigits2 (Z.pos r.1) + r.2 = Zdigits2 (Z.pos mx) + ex ∧ r.2 ≤ ex.
Proof.
  unfold shl_align. destruct (ex' - ex) as [|k|k] eqn:Hk; simpl; try lia.
  rewrite digits2_pos_iter_xO. lia.
Qed.

(** Every non-zero integer of 64 bits converts to a finite non-zero
    [float32]. *)
Lemma of_int_finite z :
  z ≠ 0 → - 2 ^ 64 < z < 2 ^ 64 →
  ∃ m e, float32.of_int z = S754_finite (z <? 0) m e.
Proof.
  intros Hz Hrange.
  assert (∀ s p, Z.pos p < 2 ^ 64 →
            ∃ m e, binary_round float32.prec float32.emax s p 0
                   = S754_finite s m e) as Hround.
  { intros s p Hp. unfold binary_round.
    pose proof (shl_align_spec p 0
                  (fexp float32.prec float32.emax (Z.pos (digits2_pos p) + 0)))
      as Halign. simpl in Halign.
    destruct (shl_align p 0 _) as [mz ez]. simpl in Halign.
    pose proof (digits2_pos_bounds p) as Hb.
    assert (Z.pos (digits2_pos p) - 1 < 64)
      by (apply (Z.pow_lt_mono_r_iff 2); lia).
    apply binary_round_aux_finite; simpl; lia. }
  unfold float32.of_int, binary_normalize.
  destruct z as [|p|p]; [done|apply Hround; lia|apply Hround; lia].
Qed.

Lemma of_int_0 : float32.of_int 0 = S754_zero false.
Proof. reflexivity. Qed.

(** ** The two counters along [Analyze] *)

Section counters.
Context `{Collaborators}.
Import OrgAnalyzer.





End counters.

(** ** The totals of [AddStatistic] *)

Section totals.
Import ClusterStats OrganizationStats OrganizationStatsList.

Lemma NewClusterStats_wraps cluster :
  cluster_total_wraps (NewClusterStats cluster).
Proof. unfold cluster_total_wraps. simpl. by rewrite sum_over_empty. Qed.

Lemma ClusterStats_AddStatistic_wraps c alert :
  cluster_total_wraps c → cluster_total_wraps (ClusterStats.AddStatistic c alert).
Proof.
  unfold cluster_total_wraps, ClusterStats.AddStatistic, GoInt.incr.
  intros ->. rewrite wrap_add_wrap_l.
  destruct (ClusterStats.Alerts c !! alert) as [n|] eqn:Hn; simpl.
  - rewrite (sum_over_insert_present _ _ _ _ n Hn). cbv beta delta [id].
    rewrite wrap_add_wrap_l. f_equal. lia.
  - rewrite sum_over_insert_fresh by done. cbv beta delta [id]. f_equal. lia.
Qed.

Lemma OrganizationStats_AddStatistic_wraps o cluster alert :
  org_total_wraps o →
  (∀ id c, Clusters o !! id = Some c → cluster_total_wraps c) →
  org_total_wraps (OrganizationStats.AddStatistic o cluster alert) ∧
  ∀ id c,
    Clusters (OrganizationStats.AddStatistic o cluster alert) !! id = Some c →
    cluster_total_wraps c.
Proof.
  intros Ho Hcs. split.
  - unfold org_total_wraps, OrganizationStats.AddStatistic in *. simpl.
    rewrite Ho. unfold GoInt.incr. rewrite wrap_add_wrap_l.
    destruct (Clusters o !! Cluster.ID cluster) as [c|] eqn:Hc.
    + rewrite (sum_over_insert_present _ _ _ _ c Hc).
      unfold ClusterStats.AddStatistic at 1.
      destruct (ClusterStats.Alerts c !! alert); simpl;
        unfold GoInt.incr; rewrite wrap_add_wrap_l; f_equal; lia.
    + rewrite sum_over_insert_fresh by done.
      unfold ClusterStats.AddStatistic at 1. simpl.
      rewrite lookup_empty. simpl. unfold GoInt.incr.
      rewrite wrap_add_wrap_l. f_equal. lia.
  - intros id c. unfold OrganizationStats.AddStatistic. simpl.
    destruct (decide (id = Cluster.ID cluster)) as [->|Hne].
    + rewrite lookup_insert_eq. intros [= <-].
      apply ClusterStats_AddStatistic_wraps.
      destruct (Clusters o !! Cluster.ID cluster) eqn:Hc;
        eauto using NewClusterStats_wraps.
    + rewrite lookup_insert_ne by done. eauto.
Qed.

Lemma cluster_counted_nonneg c : cluster_counted c → 0 ≤ ClusterStats.TotalAlerts c.
Proof. intros [-> Hpos]. apply sum_over_nonneg. exact Hpos. Qed.

Lemma org_counted_cluster_le k o id c :
  org_counted k o → Clusters o !! id = Some c → ClusterStats.TotalAlerts c ≤ k.
Proof.
  intros (Hsum & Hk & Hcs) Hc. red in Hsum.
  assert (ClusterStats.TotalAlerts c
          ≤ sum_over ClusterStats.TotalAlerts (Clusters o)) as Hb.
  { apply (sum_over_bounds _ _ id c); [|done].
    intros id' c' Hc'. apply cluster_counted_nonneg. by eapply Hcs. }
  rewrite <-Hsum in Hb. lia.
Qed.

Lemma org_counted_mono k k' o : k ≤ k' → org_counted k o → org_counted k' o.
Proof. intros ? (? & ? & ?). split; [done|]. split; [lia|done]. Qed.

Lemma ClusterStats_AddStatistic_counted c alert :
  cluster_counted c → ClusterStats.TotalAlerts c < GoInt.MaxInt →
  cluster_counted (ClusterStats.AddStatistic c alert) ∧
  ClusterStats.TotalAlerts (ClusterStats.AddStatistic c alert)
  = ClusterStats.TotalAlerts c + 1.
Proof.
  intros Hc Hlt. pose proof (cluster_counted_nonneg c Hc) as H0.
  destruct Hc as [Hsum Hpos]. red in Hsum.
  assert (ClusterStats.TotalAlerts (ClusterStats.AddStatistic c alert)
          = ClusterStats.TotalAlerts c + 1) as Htotal.
  { unfold ClusterStats.AddStatistic.
    destruct (ClusterStats.Alerts c !! alert); simpl; by apply incr_exact. }
  split; [|done]. split.
  - red. rewrite Htotal. unfold ClusterStats.AddStatistic.
    destruct (ClusterStats.Alerts c !! alert) as [n|] eqn:Hn; simpl.
    + pose proof (sum_over_bounds id _ _ _ Hpos Hn) as Hle.
      rewrite (sum_over_insert_present _ _ _ _ n Hn). cbv beta delta [id] in *.
      rewrite Hsum. rewrite incr_exact; [lia|]. split; [by eapply Hpos|].
      rewrite <-Hsum in Hle. lia.
    + rewrite sum_over_insert_fresh by done. rewrite Hsum.
      cbv beta delta [id]. lia.
  - intros a m. unfold ClusterStats.AddStatistic.
    destruct (ClusterStats.Alerts c !! alert) as [n|] eqn:Hn; simpl;
      (destruct (decide (a = alert)) as [->|Hne];
       [rewrite lookup_insert_eq; intros [= <-]
       |rewrite lookup_insert_ne by done; by apply Hpos]).
    + pose proof (sum_over_bounds id _ _ _ Hpos Hn) as Hle.
      rewrite <-Hsum in Hle. cbv beta delta [id] in Hle.
      apply Hpos in Hn. rewrite incr_exact; lia.
    + lia.
Qed.

Lemma NewClusterStats_counted cluster : cluster_counted (NewClusterStats cluster).
Proof.
  split; [red; simpl; by rewrite sum_over_empty|].
  intros a n. simpl. by rewrite lookup_empty.
Qed.

Lemma OrganizationStats_AddStatistic_counted k o cluster alert :
  org_counted k o → 0 ≤ k < GoInt.MaxInt →
  org_counted (k + 1) (OrganizationStats.AddStatistic o cluster alert).
Proof.
  intros Ho Hk.
  assert (0 ≤ OrganizationStats.TotalAlerts o) as H0.
  { destruct Ho as (-> & _ & Hcs). apply sum_over_nonneg.
    intros id c Hc. apply cluster_counted_nonneg. by eapply Hcs. }
  pose proof (org_counted_cluster_le k o) as Hle.
  destruct Ho as (Hsum & Hok & Hcs). red in Hsum.
  set (old := match Clusters o !! Cluster.ID cluster with
              | Some found => found
              | None => NewClusterStats cluster
              end).
  assert (cluster_counted old ∧ ClusterStats.TotalAlerts old ≤ k)
    as [Hold Holdk].
  { unfold old. destruct (Clusters o !! Cluster.ID cluster) as [c|] eqn:Hc.
    - split; [by eapply Hcs|]. eapply Hle; [|done].
      split; [done|]. by split.
    - split; [apply NewClusterStats_counted|]. simpl. lia. }
  destruct (ClusterStats_AddStatistic_counted old alert Hold) as [Hnew Hplus];
    [lia|].
  unfold OrganizationStats.AddStatistic. fold old.
  split; [|split]; simpl.
  - red. simpl. rewrite incr_exact by lia.
    destruct (Clusters o !! Cluster.ID cluster) as [c|] eqn:Hc.
    + rewrite (sum_over_insert_present _ _ _ _ c Hc), Hplus.
      unfold old. lia.
    + rewrite sum_over_insert_fresh by done. rewrite Hplus.
      unfold old. simpl. lia.
  - rewrite incr_exact by lia. lia.
  - intros id c. destruct (decide (id = Cluster.ID cluster)) as [->|Hne].
    + rewrite lookup_insert_eq. by intros [= <-].
    + rewrite lookup_insert_ne by done. apply Hcs.
Qed.

End totals.

(** ** C1: totals are sums *)

Lemma ingest_snoc triples org cluster alert :
  ingest (triples ++ [(org, cluster, alert)])
  = OrganizationStatsList.AddStatistic (ingest triples) org cluster alert.
Proof. unfold ingest. by rewrite foldl_snoc. Qed.

Lemma NewOrganizationStats_wraps org :
  org_total_wraps (OrganizationStats.NewOrganizationStats org).
Proof. unfold org_total_wraps. simpl. by rewrite sum_over_empty. Qed.

Lemma NewOrganizationStats_counted org :
  org_counted 0 (OrganizationStats.NewOrganizationStats org).
Proof.
  split; [red; simpl; by rewrite sum_over_empty|]. split; [done|].
  intros id c. simpl. by rewrite lookup_empty.
Qed.

Lemma OrganizationStatsList_AddStatistic_wraps l org cluster alert :
  list_wraps l →
  list_wraps (OrganizationStatsList.AddStatistic l org cluster alert).
Proof.
  intros Hl id o. unfold OrganizationStatsList.AddStatistic. simpl.
  destruct (decide (id = Organization.ID org)) as [->|Hne].
  - rewrite lookup_insert_eq. intros [= <-].
    destruct (OrganizationStatsList.Items l !! Organization.ID org)
      as [found|] eqn:Hfound.
    + destruct (Hl _ _ Hfound).
      by apply OrganizationStats_AddStatistic_wraps.
    + apply OrganizationStats_AddStatistic_wraps.
      * apply NewOrganizationStats_wraps.
      * intros cid c. simpl. by rewrite lookup_empty.
  - rewrite lookup_insert_ne by done. apply Hl.
Qed.

Lemma OrganizationStatsList_AddStatistic_counted k l org cluster alert :
  0 ≤ k < GoInt.MaxInt → list_counted k l →
  list_counted (k + 1) (OrganizationStatsList.AddStatistic l org cluster alert).
Proof.
  intros Hk Hl id o. unfold OrganizationStatsList.AddStatistic. simpl.
  destruct (decide (id = Organization.ID org)) as [->|Hne].
  - rewrite lookup_insert_eq. intros [= <-].
    apply OrganizationStats_AddStatistic_counted; [|done].
    destruct (OrganizationStatsList.Items l !! Organization.ID org)
      as [found|] eqn:Hfound; [by eapply Hl|].
    apply (org_counted_mono 0); [lia|]. apply NewOrganizationStats_counted.
  - rewrite lookup_insert_ne by done. intros Ho.
    apply (org_counted_mono k); [lia|]. by eapply Hl.
Qed.

Lemma ingest_wraps triples : list_wraps (ingest triples).
Proof.
  induction triples as [|[[org cluster] alert] triples IH] using rev_ind.
  - intros id o. unfold ingest. simpl. by rewrite lookup_empty.
  - rewrite ingest_snoc. by apply OrganizationStatsList_AddStatistic_wraps.
Qed.

Lemma ingest_counted triples :
  Z.of_nat (length triples) ≤ GoInt.MaxInt →
  list_counted (Z.of_nat (length triples)) (ingest triples).
Proof.
  induction triples as [|[[org cluster] alert] triples IH] using rev_ind.
  - intros _ id o. unfold ingest. simpl. by rewrite lookup_empty.
  - rewrite length_app. simpl. intros Hlen. rewrite ingest_snoc.
    replace (Z.of_nat (length triples + 1)) with (Z.of_nat (length triples) + 1)
      by lia.
    apply OrganizationStatsList_AddStatistic_counted; [lia|].
    apply IH. lia.
Qed.

(** C1.  After any finite sequence of [AddStatistic] calls on a fresh list,
    every organization's [TotalAlerts] is the sum of the [TotalAlerts] of its
    clusters and every cluster's [TotalAlerts] is the sum of its alert
    counts: as Go [int] sums for every sequence, and as plain sums for
    every sequence short enough not to overflow a counter (at most
    [MaxInt] calls). *)
Theorem AddStatistic_totals_are_sums triples id o :
  OrganizationStatsList.Items (ingest triples) !! id = Some o →
  (org_total_wraps o ∧
   ∀ cid c, OrganizationStats.Clusters o !! cid = Some c →
            cluster_total_wraps c) ∧
  (Z.of_nat (length triples) ≤ GoInt.MaxInt →
   org_total_exact o ∧
   ∀ cid c, OrganizationStats.Clusters o !! cid = Some c →
            cluster_total_exact c).
Proof.
  intros Ho. split; [by eapply ingest_wraps|].
  intros Hlen. destruct (ingest_counted triples Hlen id o Ho) as (? & _ & Hcs).
  split; [done|]. intros cid c Hc. by destruct (Hcs cid c Hc).
Qed.

Lemma AddStatistic_totals_are_sums_witness :
  ∃ o, OrganizationStatsList.Items (ingest Scenario.triples) !! "orgA" = Some o ∧
       org_total_exact o.
Proof.
  eexists. split; [vm_compute; reflexivity|].
  apply (AddStatistic_totals_are_sums Scenario.triples "orgA");
    [vm_compute; reflexivity|vm_compute; discriminate].
Defined.

(** ** C2: the ranked query *)

Section by_key.
Context {A : Type} (key : A → Z).

Lemma by_key_StrictWeakOrder : StrictWeakOrder (λ a b, key a <? key b).
Proof.
  split.
  - intros x. apply Z.ltb_irrefl.
  - intros x y z. rewrite !Z.ltb_lt. lia.
  - intros x y z. rewrite !Z.ltb_ge. lia.
Qed.

Lemma sort_Slice_by_key `{SliceSorter} (l : list A) :
  StronglySorted (λ a b, key a ≤ key b) (sort_Slice (λ a b, key a <? key b) l).
Proof.
  pose proof (sort_Slice_Sorted A _ l by_key_StrictWeakOrder) as Hsorted.
  induction Hsorted as [|x xs _ IH Hx]; constructor; [done|].
  eapply Forall_impl; [exact Hx|]. intros y. simpl. by rewrite Z.ltb_ge.
Qed.

End by_key.

Section ranked.
Context `{SliceSorter}.
Import OrganizationStatsList.

Lemma ranges_over_length {V : Type} (m : gmap string V) visited :
  ranges_over m visited → length visited.*2 = size m.
Proof.
  unfold ranges_over. intros ->. by rewrite length_fmap, length_map_to_list.
Qed.

Lemma sorted_stats (m : gmap string OrganizationStats.t) visited :
  ranges_over m visited →
  let all := sort_Slice less visited.*2 in
  all ≡ₚ values m ∧ ascending all ∧ length all = size m.
Proof.
  intros Hv. simpl. split; [|split].
  - rewrite sort_Slice_Permutation. unfold values. by rewrite Hv.
  - apply (sort_Slice_by_key OrganizationStats.TotalAlerts).
  - rewrite sort_Slice_Permutation. by apply ranges_over_length.
Qed.

Lemma slice_from_in_range {A : Type} (s : list A) (n : Z) :
  0 < n ≤ Z.of_nat (length s) → Z.of_nat (length s) ≤ GoInt.MaxInt →
  slice_from s (GoInt.sub (Z.of_nat (length s)) n)
  = Some (drop (length s - Z.to_nat n) s).
Proof.
  intros Hn Hfits. unfold GoInt.sub. rewrite wrap_id.
  - unfold slice_from.
    rewrite (proj2 (Z.leb_le _ _)), (proj2 (Z.leb_le _ _)) by lia. simpl.
    do 2 f_equal. lia.
  - unfold GoInt.InRange, GoInt.MinInt, GoInt.MaxInt in *. lia.
Qed.

(** C2.  [TopOrgs n] returns, and whatever it returns is cut from one
    ascending arrangement [all] of all organizations: the whole of it when
    [n <= 0] or [n] is at least the number of organizations, and its last
    [n] entries when [n] lies strictly between, so that every organization
    returned has at least as many alerts as every one left out; on an empty
    list the result is empty for every [n]. *)
Theorem TopOrgs_ranked (o : t) (n : Z) :
  fits (Items o) →
  (∃ r, TopOrgs o n (Some r)) ∧
  ∀ r, TopOrgs o n r →
    ∃ all,
      all ≡ₚ values (Items o) ∧ ascending all ∧
      (n ≤ 0 ∨ Z.of_nat (size (Items o)) ≤ n → r = Some all) ∧
      (0 < n < Z.of_nat (size (Items o)) →
         ∃ rest top,
           all = rest ++ top ∧ r = Some top ∧ Z.of_nat (length top) = n ∧
           ∀ x y, x ∈ top → y ∈ rest →
             OrganizationStats.TotalAlerts y ≤ OrganizationStats.TotalAlerts x) ∧
      (size (Items o) = 0%nat → r = Some []).
Proof.
  intros Hfits.
  assert (∀ visited, ranges_over (Items o) visited →
            let all := sort_Slice less visited.*2 in
            (n ≤ 0 ∨ Z.of_nat (size (Items o)) ≤ n →
               TopOrgs_of visited.*2 n = Some all) ∧
            (0 < n < Z.of_nat (size (Items o)) →
               TopOrgs_of visited.*2 n
               = Some (drop (length all - Z.to_nat n) all))) as Hcases.
  { intros visited Hv all.
    destruct (sorted_stats _ _ Hv) as (_ & _ & Hlen). fold all in Hlen.
    unfold TopOrgs_of. fold all. red in Hfits. split; intros Hn.
    - destruct (n <=? 0) eqn:Hn0; [done|]. apply Z.leb_gt in Hn0.
      destruct (n >? Z.of_nat (length all)) eqn:Hgt; [done|]. simpl.
      rewrite Z.gtb_ltb in Hgt. apply Z.ltb_ge in Hgt.
      rewrite slice_from_in_range by lia.
      replace (length all - Z.to_nat n)%nat with 0%nat by lia. done.
    - rewrite (proj2 (Z.leb_gt _ _)) by lia. rewrite Z.gtb_ltb.
      rewrite (proj2 (Z.ltb_ge _ _)) by lia. simpl.
      by rewrite slice_from_in_range by lia. }
  split.
  - assert (ranges_over (Items o) (map_to_list (Items o))) as Hv by by red.
    destruct (Hcases _ Hv) as [Hall Hlast].
    destruct (decide (0 < n < Z.of_nat (size (Items o)))) as [Hn|Hn].
    + eexists. exists (map_to_list (Items o)). split; [done|].
      symmetry. by apply Hlast.
    + eexists. exists (map_to_list (Items o)). split; [done|].
      symmetry. apply Hall. lia.
  - intros r (visited & Hv & ->).
    destruct (sorted_stats _ _ Hv) as (Hperm & Hasc & Hlen).
    destruct (Hcases visited Hv) as [Hall Hlast].
    set (all := sort_Slice less visited.*2) in *.
    exists all. split; [done|]. split; [done|]. split; [done|]. split.
    + intros Hn. exists (take (length all - Z.to_nat n) all),
        (drop (length all - Z.to_nat n) all).
      split; [by rewrite take_drop|]. split; [by apply Hlast|].
      split; [rewrite length_drop; lia|].
      intros x y Hx Hy.
      rewrite <-(take_drop (length all - Z.to_nat n) all) in Hasc.
      exact (StronglySorted_app_1_elem_of _ _ _ y x Hasc Hy Hx).
    + intros Hempty. rewrite Hall by lia. f_equal.
      apply nil_length_inv. by rewrite Hlen.
Qed.

End ranked.

Lemma TopOrgs_ranked_witness :
  ∃ r, @OrganizationStatsList.TopOrgs insertion_sorter
         (ingest Scenario.triples) 1 (Some r).
Proof.
  apply (@TopOrgs_ranked insertion_sorter (ingest Scenario.triples) 1).
  vm_compute. discriminate.
Defined.

(** ** The sorted slice determines the result *)

Section requery.
Context `{SliceSorter}.
Import OrganizationStatsList.

Lemma TopOrgs_of_cut stats n : TopOrgs_of stats n = cut (sort_Slice less stats) n.
Proof. reflexivity. Qed.

Lemma fmap_cut {A B : Type} (f : A → B) (l : list A) n :
  fmap (M:=option) (fmap (M:=list) f) (cut l n) = cut (f <$> l) n.
Proof.
  unfold cut, slice_from. rewrite length_fmap.
  repeat case_match; simpl; try done. by rewrite fmap_drop.
Qed.

Lemma sorted_totals_unique (l1 l2 : list OrganizationStats.t) :
  ascending l1 → ascending l2 → l1 ≡ₚ l2 →
  OrganizationStats.TotalAlerts <$> l1 = OrganizationStats.TotalAlerts <$> l2.
Proof.
  intros H1 H2 Hperm.
  apply (StronglySorted_unique_strong Z.le).
  - intros; lia.
  - eapply StronglySorted_fmap; [|exact H1]. done.
  - eapply StronglySorted_fmap; [|exact H2]. done.
  - by rewrite Hperm.
Qed.

Lemma NoDup_fmap_inj_on {A B : Type} (f : A → B) (l : list A) x y :
  NoDup (f <$> l) → x ∈ l → y ∈ l → f x = f y → x = y.
Proof.
  induction l as [|z l IH]; [by intros _ ?%elem_of_nil|].
  rewrite fmap_cons, NoDup_cons, !elem_of_cons.
  intros [Hz Hl] [->|Hx] [->|Hy] Hf; [done| | |by apply IH].
  - destruct Hz. rewrite Hf. by apply list_elem_of_fmap_2.
  - destruct Hz. rewrite <-Hf. by apply list_elem_of_fmap_2.
Qed.

Lemma sorted_stats_unique (l1 l2 : list OrganizationStats.t) :
  NoDup (OrganizationStats.TotalAlerts <$> l1) →
  ascending l1 → ascending l2 → l1 ≡ₚ l2 → l1 = l2.
Proof.
  intros Hnodup H1 H2 Hperm.
  eapply StronglySorted_unique_strong; [|exact H1|exact H2|exact Hperm].
  intros x y Hx Hy Hxy Hyx. simpl in *.
  apply (NoDup_fmap_inj_on OrganizationStats.TotalAlerts l1); try done.
  - by rewrite Hperm.
  - lia.
Qed.

End requery.

(** ** C3: the warning of the two textual summaries *)

Section warning.
Context `{SliceSorter}.
Import OrgAnalyzer.

Lemma TopOrgs_None_excluded (l : OrganizationStatsList.t) n r :
  fits (OrganizationStatsList.Items l) →
  OrganizationStatsList.TopOrgs l n r → is_Some r.
Proof.
  intros Hfits (visited & Hv & ->).
  rewrite TopOrgs_of_cut. unfold cut.
  destruct (n <=? 0) eqn:Hn0; [done|]. apply Z.leb_gt in Hn0.
  destruct (n >? _) eqn:Hgt; [done|]. simpl.
  rewrite Z.gtb_ltb in Hgt. apply Z.ltb_ge in Hgt.
  assert (length (sort_Slice OrganizationStatsList.less visited.*2)
          = size (OrganizationStatsList.Items l)) as Hlen
    by (rewrite sort_Slice_Permutation; by apply ranges_over_length).
  rewrite slice_from_in_range; [done|lia|]. rewrite Hlen. exact Hfits.
Qed.

(** Both summaries write to the error stream what their common head
    writes, and nothing else. *)
Lemma printShortSummary_ErrOut o w :
  printShortSummary o (Some w) → ErrOut w = ErrOut (summaryHead o).
Proof.
  intros (topOrgs & _ & Hw). destruct topOrgs as [orgs|]; [|done].
  simpl in Hw. injection Hw as ->. simpl. by rewrite app_nil_r.
Qed.

Lemma printLongSummary_ErrOut o w :
  printLongSummary o (Some w) → ErrOut w = ErrOut (summaryHead o).
Proof.
  intros (topOrgs & _ & Hw). destruct topOrgs as [orgs|]; [|done].
  destruct Hw as (blocks & _ & Hw).
  injection Hw as ->. simpl. by rewrite app_nil_r.
Qed.

(** The warning is written exactly when the skip percentage, a number
    between 0 and 100, exceeds the [float32] constant 0.3. *)
Lemma summaryHead_warns o :
  HighSkipPercentage ∈ ErrOut (summaryHead o)
  ↔ float32.gt (CalculateSkipPercentage o) float32.c0_3 = true.
Proof.
  unfold summaryHead. simpl.
  destruct (float32.gt (CalculateSkipPercentage o) float32.c0_3).
  - split; [done|]. intros _. by apply list_elem_of_singleton.
  - split; [by intros ?%elem_of_nil|done].
Qed.

End warning.

(** C3, at an input on which the code departs from it: with 1 entry in
    100 skipped the skip percentage is 1, which is not above 30, and yet
    both summaries write the warning (and go on to their end). *)
Theorem warning_at_one_percent :
  OrgAnalyzer.CalculateSkipPercentage one_percent_skipped = float32.of_int 1 ∧
  float32.gt (OrgAnalyzer.CalculateSkipPercentage one_percent_skipped)
             (float32.of_int 30) = false ∧
  (∃ w, @OrgAnalyzer.printShortSummary insertion_sorter one_percent_skipped
          (Some w) ∧
        ErrOut w = [HighSkipPercentage]) ∧
  (∃ w, @OrgAnalyzer.printLongSummary insertion_sorter one_percent_skipped
          (Some w) ∧
        ErrOut w = [HighSkipPercentage]).
Proof.
  split; [by vm_compute|]. split; [by vm_compute|]. split.
  - eexists. split.
    + exists (Some []). split; [|reflexivity].
      exists []. split; [by red|by vm_compute].
    + by vm_compute.
  - eexists. split.
    + exists (Some []). split.
      * exists []. split; [by red|by vm_compute].
      * exists []. split; [constructor|reflexivity].
    + by vm_compute.
Qed.

(** ** C4: the skip percentage *)

Lemma c100_finite : float32.c100 = S754_finite false 13107200 (-17).
Proof. reflexivity. Qed.



(** Outside the data model: with no entry counted but one skipped the
    quotient is an infinity, not NaN. *)
Remark CalculateSkipPercentage_of_one_in_none :
  OrgAnalyzer.CalculateSkipPercentage
    {| OrgAnalyzer.Stats := OrganizationStatsList.NewOrganizationStatsList;
       OrgAnalyzer.SkippedEntries := 1; OrgAnalyzer.TotalEntries := 0;
       OrgAnalyzer.Output := "long"; OrgAnalyzer.NumOrgs := 5;
       OrgAnalyzer.SearchRegex := "" |}
  = S754_infinity false.
Proof. reflexivity. Qed.

(** ** C5: the search filter in the loop of [Analyze] *)

Section search_filter.
Context `{Collaborators}.
Import OrgAnalyzer.

(** C5.  Take an entry that parses and whose cluster and organization
    resolve, under a non-empty search pattern.  If the pattern matches
    neither the organization's name nor its ID, the entry is dropped with
    [SkippedEntries] as it was; if evaluating the pattern fails, on the
    name or else on the ID, the entry is dropped with [SkippedEntries]
    incremented.  Either way the statistics are untouched, the entry has
    been counted in [TotalEntries], and the loop goes on with the rest of
    the report. *)
Theorem search_filter_discards (s : State) entry clusterID alert cluster
    orgID org report :
  SearchRegex (self s) ≠ ""%string →
  parseEntry entry = Some (clusterID, alert) →
  GetCluster clusterID = Ok cluster →
  GetOrgIDFromCluster cluster = Ok orgID →
  GetOrgFromID orgID = Ok org →
  let pattern := SearchRegex (self s) in
  (MatchString pattern (Organization.Name org) = Ok false →
   MatchString pattern (Organization.ID org) = Ok false →
   ∃ s', analyzeEntry (Record_ entry) s = Some s' ∧
         SkippedEntries (self s') = SkippedEntries (self s) ∧
         TotalEntries (self s') = GoInt.incr (TotalEntries (self s)) ∧
         Stats (self s') = Stats (self s) ∧
         analyzeLoop (Record_ entry :: report) s = analyzeLoop report s') ∧
  ((∃ err, MatchString pattern (Organization.Name org) = Error err) ∨
   (∃ matchName err,
      MatchString pattern (Organization.Name org) = Ok matchName ∧
      MatchString pattern (Organization.ID org) = Error err) →
   ∃ s', analyzeEntry (Record_ entry) s = Some s' ∧
         SkippedEntries (self s') = GoInt.incr (SkippedEntries (self s)) ∧
         TotalEntries (self s') = GoInt.incr (TotalEntries (self s)) ∧
         Stats (self s') = Stats (self s) ∧
         analyzeLoop (Record_ entry :: report) s = analyzeLoop report s').
Proof.
  intros Hpattern Hparse Hcluster HorgID Horg pattern.
  assert (String.eqb pattern "" = false) as Hnonempty
    by by apply String.eqb_neq.
  assert (∀ s',
            analyzeEntry (Record_ entry) s = Some s' →
            analyzeLoop (Record_ entry :: report) s = analyzeLoop report s')
    as Hloop by (intros s' Hs'; cbn [analyzeLoop]; by rewrite Hs').
  assert (analyzeEntry (Record_ entry) s
          = Some (filterAndAdd org cluster alert
                    (called (CallGetOrgFromID orgID)
                       (called (CallGetOrgIDFromCluster cluster)
                          (called (CallGetCluster clusterID)
                             (update countEntry (called CallRead s)))))))
    as Hentry.
  { unfold analyzeEntry. rewrite Hparse. simpl.
    by rewrite Hcluster, HorgID, Horg. }
  split.
  - intros HmatchName HmatchID. eexists. split; [exact Hentry|].
    split; [|split; [|split; [|by apply Hloop]]];
      unfold filterAndAdd; simpl; fold pattern;
      by rewrite Hnonempty, HmatchName, HmatchID.
  - intros [[err Herr]|(matchName & err & HmatchName & Herr)];
      (eexists; split; [exact Hentry|]);
      (split; [|split; [|split; [|by apply Hloop]]]);
      unfold filterAndAdd; simpl; fold pattern;
      by rewrite Hnonempty, ?HmatchName, Herr.
Qed.

End search_filter.

Lemma search_filter_discards_witness :
  ∃ s', @OrgAnalyzer.analyzeEntry Stub.collaborators (Record_ Stub.row)
          (Stub.searching "orgZ") = Some s' ∧
        OrgAnalyzer.SkippedEntries (OrgAnalyzer.self s') = 0.
Proof.
  destruct (@search_filter_discards Stub.collaborators (Stub.searching "orgZ")
              Stub.row "clusterX" "AlertFoo" Scenario.clusterX "orgA"
              Scenario.orgA [])
    as [Hdropped _]; try reflexivity; [discriminate|].
  destruct Hdropped as (s' & Hs' & Hskipped & _); try reflexivity.
  exists s'. split; [exact Hs'|exact Hskipped].
Defined.

(** ** C6: the scenario *)

(** C6 (as amended).  The scenario's figures as the code computes them; the share of three
    alerts in five entries is 15728641 * 2^-18 = 60.000003814697265625,
    the [float32] next above 60, because 3/5 is rounded up to a [float32]
    before it is multiplied by 100. *)
Theorem scenario_figures :
  let l := OrgAnalyzer.Stats Scenario.analyzer in
  OrganizationStats.TotalAlerts <$> OrganizationStatsList.Items l !! "orgA"
    = Some 3 ∧
  count_of l "orgA" "clusterX" "AlertFoo" = Some 2 ∧
  OrganizationStats.TotalAlerts <$> OrganizationStatsList.Items l !! "orgB"
    = Some 1 ∧
  OrgAnalyzer.CalculateSkipPercentage Scenario.analyzer = float32.of_int 20 ∧
  OrgAnalyzer.CalculatePercentageOfTotal Scenario.analyzer 3
    = S754_finite false 15728641 (-18) ∧
  OrgAnalyzer.CalculatePercentageOfAnalyzed Scenario.analyzer 3
    = float32.of_int 75.
Proof. repeat apply conj; vm_compute; reflexivity. Qed.

(** C6, as stated, fails on its fifth figure:
    [CalculatePercentageOfTotal(3) == 60.0] is false in the scenario. *)
Lemma scenario_percentage_of_total_is_not_60 :
  float32.eqb (OrgAnalyzer.CalculatePercentageOfTotal Scenario.analyzer 3)
              (float32.of_int 60) = false.
Proof. vm_compute. reflexivity. Qed.

(** ** C7: the command validates first *)

Section command.
Context `{Collaborators} `{SliceSorter} `{OrgAnalyzer.Marshallers}.
Import OrgAnalyzer.

Lemma validateAnalyzer_invalid (o : t) :
  Output o ∉ ["short"; "long"; "yaml"; "json"]%string →
  is_Some (validateAnalyzer o).
Proof.
  rewrite !not_elem_of_cons. intros (Hshort & Hlong & Hyaml & Hjson & _).
  unfold validateAnalyzer.
  by rewrite (proj2 (String.eqb_neq _ _) Hyaml),
    (proj2 (String.eqb_neq _ _) Hjson), (proj2 (String.eqb_neq _ _) Hshort),
    (proj2 (String.eqb_neq _ _) Hlong).
Qed.

(** C7.  When [Output] is none of ['short'], ['long'], ['yaml'], ['json'],
    the command returns an "invalid argument provided" error and that is
    all it does: the analyzer is as it was, nothing has been written, and
    no call has left the process, neither to open or read the report nor
    to OCM. *)
Theorem invalid_output_fails_first (analyzer : t) (path : string) r :
  Output analyzer ∉ ["short"; "long"; "yaml"; "json"]%string →
  RunE analyzer path r ↔
  ∃ err s,
    r = Some (Some ("invalid argument provided: " +:+ err)%string, s) ∧
    validateAnalyzer analyzer = Some err ∧
    self s = analyzer ∧ streams s = no_output ∧ calls s = [].
Proof.
  intros [err Herr]%validateAnalyzer_invalid.
  unfold RunE. rewrite Herr. split.
  - intros ->. by exists err, (start analyzer).
  - intros (err' & s & -> & [= <-] & Hself & Hstreams & Hcalls).
    destruct s as [self' streams' calls']. simpl in *. by subst.
Qed.

End command.

Lemma invalid_output_fails_first_witness :
  ∃ r, @OrgAnalyzer.RunE Stub.collaborators insertion_sorter Stub.marshallers
         (Stub.with_output "xml") "report.csv" r.
Proof.
  eexists.
  apply (@invalid_output_fails_first Stub.collaborators insertion_sorter
           Stub.marshallers (Stub.with_output "xml") "report.csv").
  - rewrite !not_elem_of_cons. repeat split; try discriminate.
    apply not_elem_of_nil.
  - eexists _, (OrgAnalyzer.start (Stub.with_output "xml")).
    repeat split; reflexivity.
Defined.

(** ** C8: asking again *)

(** C8 (as amended).  Let [o'] be the analyzer at a later query than [o],
    with the same statistics and the same two counters.  The three
    percentages are then the same, and [TopOrgs] returns organizations with
    the same alert totals in the same order; it returns the same
    organizations whenever no two organizations have the same total. *)
Theorem requery_agrees `{SliceSorter} (o o' : OrgAnalyzer.t) (n : Z) r1 r2 :
  OrgAnalyzer.Stats o' = OrgAnalyzer.Stats o →
  OrgAnalyzer.TotalEntries o' = OrgAnalyzer.TotalEntries o →
  OrgAnalyzer.SkippedEntries o' = OrgAnalyzer.SkippedEntries o →
  OrganizationStatsList.TopOrgs (OrgAnalyzer.Stats o) n r1 →
  OrganizationStatsList.TopOrgs (OrgAnalyzer.Stats o') n r2 →
  totals_of r1 = totals_of r2 ∧
  (NoDup (OrganizationStats.TotalAlerts
            <$> values (OrganizationStatsList.Items (OrgAnalyzer.Stats o))) →
   r1 = r2) ∧
  OrgAnalyzer.CalculateSkipPercentage o' = OrgAnalyzer.CalculateSkipPercentage o ∧
  (∀ count, OrgAnalyzer.CalculatePercentageOfTotal o' count
            = OrgAnalyzer.CalculatePercentageOfTotal o count) ∧
  (∀ count, OrgAnalyzer.CalculatePercentageOfAnalyzed o' count
            = OrgAnalyzer.CalculatePercentageOfAnalyzed o count).
Proof.
  intros -> Htotal Hskipped (v1 & Hv1 & ->) (v2 & Hv2 & ->).
  destruct (sorted_stats _ _ Hv1) as (Hp1 & Ha1 & _).
  destruct (sorted_stats _ _ Hv2) as (Hp2 & Ha2 & _).
  assert (sort_Slice OrganizationStatsList.less v1.*2
          ≡ₚ sort_Slice OrganizationStatsList.less v2.*2) as Hperm
    by by rewrite Hp1, Hp2.
  split; [|split; [|split; [|split]]].
  - unfold totals_of. rewrite !TopOrgs_of_cut, !fmap_cut.
    f_equal. by apply sorted_totals_unique.
  - intros Hnodup. rewrite !TopOrgs_of_cut. f_equal.
    apply sorted_stats_unique; [|done..]. by rewrite Hp1.
  - unfold OrgAnalyzer.CalculateSkipPercentage. by rewrite Htotal, Hskipped.
  - intros count. unfold OrgAnalyzer.CalculatePercentageOfTotal.
    by rewrite Htotal.
  - intros count. unfold OrgAnalyzer.CalculatePercentageOfAnalyzed.
    by rewrite Htotal, Hskipped.
Qed.

Lemma requery_agrees_witness :
  let r := @OrganizationStatsList.TopOrgs_of insertion_sorter
             (values (OrganizationStatsList.Items
                        (OrgAnalyzer.Stats Scenario.analyzer))) 1 in
  totals_of r = totals_of r ∧
  OrgAnalyzer.CalculateSkipPercentage Scenario.analyzer
  = OrgAnalyzer.CalculateSkipPercentage Scenario.analyzer.
Proof.
  assert (@OrganizationStatsList.TopOrgs insertion_sorter
            (OrgAnalyzer.Stats Scenario.analyzer) 1
            (@OrganizationStatsList.TopOrgs_of insertion_sorter
               (values (OrganizationStatsList.Items
                          (OrgAnalyzer.Stats Scenario.analyzer))) 1)) as Hr.
  { eexists. split; [red; reflexivity|reflexivity]. }
  destruct (@requery_agrees insertion_sorter Scenario.analyzer
              Scenario.analyzer 1 _ _ eq_refl eq_refl eq_refl Hr Hr)
    as (Htotals & _ & Hskip & _).
  exact (conj Htotals Hskip).
Defined.

(** C8, as stated, fails on ties: with two organizations at one alert
    each, [TopOrgs(1)] may return either of them, depending on the order in
    which the map is visited. *)
Lemma TopOrgs_tie_not_repeatable :
  ∃ r1 r2,
    @OrganizationStatsList.TopOrgs insertion_sorter tied 1 r1 ∧
    @OrganizationStatsList.TopOrgs insertion_sorter tied 1 r2 ∧
    r1 ≠ r2.
Proof.
  pose (a := OrganizationStats.AddStatistic
               (OrganizationStats.NewOrganizationStats Scenario.orgA)
               Scenario.clusterX "AlertFoo").
  pose (b := OrganizationStats.AddStatistic
               (OrganizationStats.NewOrganizationStats Scenario.orgB)
               Scenario.clusterZ "AlertFoo").
  assert (map_to_list (OrganizationStatsList.Items tied)
          ≡ₚ [("orgA"%string, a); ("orgB"%string, b)]) as Hentries.
  { vm_compute. first [reflexivity|apply perm_swap]. }
  exists (@OrganizationStatsList.TopOrgs_of insertion_sorter [a; b] 1),
         (@OrganizationStatsList.TopOrgs_of insertion_sorter [b; a] 1).
  split; [|split].
  - exists [("orgA"%string, a); ("orgB"%string, b)]. by split.
  - exists [("orgB"%string, b); ("orgA"%string, a)]. split; [|done].
    red. rewrite Hentries. apply Permutation_swap.
  - vm_compute. intros [=].
Qed.

(** ** C9: the unchecked slice of [TopClusters] *)

Lemma wrap_overflow z :
  GoInt.MaxInt < z < 2 ^ 64 → GoInt.wrap z = z - 2 ^ 64.
Proof.
  unfold GoInt.MaxInt, GoInt.wrap. intros Hz.
  replace (z + 2 ^ 63) with (z + 2 ^ 63 - 2 ^ 64 + 1 * 2 ^ 64) by lia.
  rewrite Z_mod_plus_full, Z.mod_small; lia.
Qed.

Lemma slice_from_Some {A : Type} (s : list A) (low : Z) :
  is_Some (slice_from s low) ↔ 0 ≤ low ≤ Z.of_nat (length s).
Proof.
  unfold slice_from.
  destruct (0 <=? low) eqn:H0; destruct (low <=? Z.of_nat (length s)) eqn:H1;
    simpl; rewrite ?Z.leb_le, ?Z.leb_gt in *;
    (split; [intros Hsome|intros Hrange]); try lia; try done;
    by destruct Hsome.
Qed.

Section unchecked.
Context `{SliceSorter}.
Import OrganizationStats.

(** C9.  [TopClusters n] on an organization with [c] clusters returns a
    list exactly when [0 <= n <= c] and panics otherwise: for [n > c] the
    lower bound [len(stats)-n] of its slice expression is negative, and for
    [n = 0] the slice, taken from [len(stats)] on, is empty. *)
Theorem TopClusters_unchecked (o : t) (n : Z) :
  fits (Clusters o) → GoInt.InRange n →
  let c := Z.of_nat (size (Clusters o)) in
  (∃ r, TopClusters o n r) ∧
  ∀ r, TopClusters o n r →
    (is_Some r ↔ 0 ≤ n ≤ c) ∧
    (c < n → GoInt.sub c n < 0 ∧ r = None) ∧
    (n = 0 → r = Some []).
Proof.
  intros Hfits Hn c. split.
  { eexists. exists (map_to_list (Clusters o)). split; [by red|done]. }
  intros r (visited & Hv & ->). unfold TopClusters_of.
  set (stats := sort_Slice less visited.*2).
  assert (Z.of_nat (length stats) = c) as Hlen.
  { unfold stats, c. rewrite sort_Slice_Permutation.
    by rewrite (ranges_over_length _ _ Hv). }
  rewrite Hlen. red in Hfits. fold c in Hfits.
  unfold GoInt.InRange, GoInt.MinInt in Hn.
  assert (0 ≤ c) by lia.
  assert (n ≤ c - GoInt.MaxInt - 1 ∨ c - GoInt.MaxInt ≤ n) as [Hwrap|Hexact]
    by lia.
  - (* [c - n] exceeds [MaxInt] and wraps around to a negative number *)
    assert (GoInt.sub c n = c - n - 2 ^ 64) as Hsub.
    { unfold GoInt.sub. apply wrap_overflow.
      unfold GoInt.MaxInt in *. lia. }
    split; [|split].
    + rewrite slice_from_Some, Hsub, Hlen. unfold GoInt.MaxInt in *. lia.
    + unfold GoInt.MaxInt in *. lia.
    + unfold GoInt.MaxInt in *. lia.
  - assert (GoInt.sub c n = c - n) as Hsub.
    { unfold GoInt.sub. apply wrap_id.
      unfold GoInt.InRange, GoInt.MinInt, GoInt.MaxInt in *. lia. }
    rewrite Hsub. split; [|split].
    + rewrite slice_from_Some, Hlen. lia.
    + intros Hgt. split; [lia|].
      destruct (slice_from stats (c - n)) eqn:Hslice; [|done].
      assert (is_Some (slice_from stats (c - n))) as Hsome by by rewrite Hslice.
      rewrite slice_from_Some, Hlen in Hsome. lia.
    + intros ->. unfold slice_from. rewrite Z.sub_0_r, Hlen.
      rewrite (proj2 (Z.leb_le 0 c)), Z.leb_refl by lia. simpl.
      f_equal. apply nil_length_inv. rewrite length_drop. lia.
Qed.

End unchecked.

Lemma TopClusters_unchecked_witness :
  ∃ r, @OrganizationStats.TopClusters insertion_sorter
         (OrganizationStats.AddStatistic
            (OrganizationStats.NewOrganizationStats Scenario.orgA)
            Scenario.clusterX "AlertFoo") 2 r ∧
       r = None.
Proof.
  assert (fits (OrganizationStats.Clusters
                  (OrganizationStats.AddStatistic
                     (OrganizationStats.NewOrganizationStats Scenario.orgA)
                     Scenario.clusterX "AlertFoo"))) as Hfits
    by (vm_compute; discriminate).
  assert (GoInt.InRange 2) as Hrange by (vm_compute; split; discriminate).
  destruct (@TopClusters_unchecked insertion_sorter _ 2 Hfits Hrange)
    as [[r Hr] Hall].
  exists r. split; [exact Hr|].
  destruct (Hall r Hr) as (_ & Hpanic & _).
  apply Hpanic. vm_compute. reflexivity.
Defined.

(** ** C10: what [AddStatistic] leaves alone *)

Lemma ClusterStats_AddStatistic_frame c alert other :
  other ≠ alert →
  ClusterStats.Alerts (ClusterStats.AddStatistic c alert) !! other
  = ClusterStats.Alerts c !! other.
Proof.
  intros Hne. unfold ClusterStats.AddStatistic.
  destruct (ClusterStats.Alerts c !! alert); simpl;
    by rewrite lookup_insert_ne.
Qed.

Lemma cluster_of_AddStatistic l org cluster alert :
  cluster_of (OrganizationStatsList.AddStatistic l org cluster alert)
             (Organization.ID org) (Cluster.ID cluster)
  = Some (ClusterStats.AddStatistic
            (default (ClusterStats.NewClusterStats cluster)
                     (cluster_of l (Organization.ID org) (Cluster.ID cluster)))
            alert).
Proof.
  unfold cluster_of, OrganizationStatsList.AddStatistic. simpl.
  rewrite lookup_insert_eq. simpl. rewrite lookup_insert_eq.
  destruct (OrganizationStatsList.Items l !! Organization.ID org) as [o|];
    simpl; [|by rewrite lookup_empty].
  by destruct (OrganizationStats.Clusters o !! Cluster.ID cluster).
Qed.

(** C10.  A call [AddStatistic(org, cluster, alert)] changes nothing but
    the entry of [org], there nothing but the total and the entry of
    [cluster], and there nothing but the total and the count of [alert]:
    every other organization, every other cluster of [org] and every other
    alert count of [cluster] is as before, and so are [TotalEntries] and
    [SkippedEntries]. *)
Theorem AddStatistic_frame (a : OrgAnalyzer.t) org cluster alert :
  let a' := OrgAnalyzer.AddStatistic a org cluster alert in
  (∀ other, other ≠ Organization.ID org →
     OrganizationStatsList.Items (OrgAnalyzer.Stats a') !! other
     = OrganizationStatsList.Items (OrgAnalyzer.Stats a) !! other) ∧
  (∀ other, other ≠ Cluster.ID cluster →
     cluster_of (OrgAnalyzer.Stats a') (Organization.ID org) other
     = cluster_of (OrgAnalyzer.Stats a) (Organization.ID org) other) ∧
  (∀ other, other ≠ alert →
     count_of (OrgAnalyzer.Stats a') (Organization.ID org) (Cluster.ID cluster)
              other
     = count_of (OrgAnalyzer.Stats a) (Organization.ID org) (Cluster.ID cluster)
                other) ∧
  OrgAnalyzer.TotalEntries a' = OrgAnalyzer.TotalEntries a ∧
  OrgAnalyzer.SkippedEntries a' = OrgAnalyzer.SkippedEntries a.
Proof.
  simpl. repeat apply conj; try reflexivity.
  - intros other Hne. unfold OrganizationStatsList.AddStatistic. simpl.
    by rewrite lookup_insert_ne.
  - intros other Hne.
    unfold cluster_of, OrganizationStatsList.AddStatistic. simpl.
    rewrite lookup_insert_eq. simpl. rewrite lookup_insert_ne by done.
    destruct (OrganizationStatsList.Items (OrgAnalyzer.Stats a)
                !! Organization.ID org); simpl; [done|].
    by rewrite lookup_empty.
  - intros other Hne. unfold count_of. rewrite cluster_of_AddStatistic. simpl.
    rewrite ClusterStats_AddStatistic_frame by done.
    destruct (cluster_of (OrgAnalyzer.Stats a) (Organization.ID org)
                (Cluster.ID cluster)); simpl; [done|].
    by rewrite lookup_empty.
Qed.

(** * Further properties of the code *)

(** ** Counting the calls of an ingestion *)

Lemma incr_counter_onto old n :
  0 ≤ n →
  Some (GoInt.incr (default 0 (counter_onto old n))) = counter_onto old (n + 1).
Proof.
  intros Hn. unfold counter_onto.
  rewrite (decide_False (P := n + 1 = 0)) by lia. f_equal.
  destruct (decide (n = 0)) as [->|Hne]; simpl.
  - done.
  - unfold GoInt.incr. rewrite wrap_add_wrap_l. f_equal. lia.
Qed.

Lemma counter_onto_None n : counter_onto None n = counter_after n.
Proof. reflexivity. Qed.

Lemma cluster_of_AddStatistic_other l org cluster alert o c :
  ¬ (o = Organization.ID org ∧ c = Cluster.ID cluster) →
  cluster_of (OrganizationStatsList.AddStatistic l org cluster alert) o c
  = cluster_of l o c.
Proof.
  intros Hne. unfold cluster_of, OrganizationStatsList.AddStatistic. simpl.
  destruct (decide (o = Organization.ID org)) as [->|Ho].
  - rewrite lookup_insert_eq. simpl.
    rewrite lookup_insert_ne by (intros <-; by apply Hne).
    destruct (OrganizationStatsList.Items l !! Organization.ID org); simpl;
      [done|by rewrite lookup_empty].
  - by rewrite lookup_insert_ne.
Qed.

Lemma org_total_of_AddStatistic l org cluster alert o :
  org_total_of (OrganizationStatsList.AddStatistic l org cluster alert) o
  = if decide (for_org o (org, cluster, alert))
    then Some (GoInt.incr (default 0 (org_total_of l o)))
    else org_total_of l o.
Proof.
  unfold org_total_of, OrganizationStatsList.AddStatistic. simpl.
  destruct (decide (for_org o (org, cluster, alert))) as [<-|Hne]; simpl.
  - rewrite lookup_insert_eq. simpl.
    by destruct (OrganizationStatsList.Items l !! Organization.ID org).
  - by rewrite lookup_insert_ne.
Qed.

Lemma ClusterStats_AddStatistic_total c alert :
  ClusterStats.TotalAlerts (ClusterStats.AddStatistic c alert)
  = GoInt.incr (ClusterStats.TotalAlerts c).
Proof.
  unfold ClusterStats.AddStatistic.
  by destruct (ClusterStats.Alerts c !! alert).
Qed.

Lemma cluster_total_of_AddStatistic l org cluster alert o c :
  cluster_total_of (OrganizationStatsList.AddStatistic l org cluster alert) o c
  = if decide (for_cluster o c (org, cluster, alert))
    then Some (GoInt.incr (default 0 (cluster_total_of l o c)))
    else cluster_total_of l o c.
Proof.
  unfold cluster_total_of.
  destruct (decide (for_cluster o c (org, cluster, alert))) as [[<- <-]|Hne];
    simpl in *.
  - rewrite cluster_of_AddStatistic. simpl.
    rewrite ClusterStats_AddStatistic_total.
    by destruct (cluster_of l (Organization.ID org) (Cluster.ID cluster)).
  - rewrite cluster_of_AddStatistic_other; [done|]. unfold for_cluster in Hne.
    simpl in Hne. intros [-> ->]. by apply Hne.
Qed.

Lemma count_of_AddStatistic l org cluster alert o c a :
  count_of (OrganizationStatsList.AddStatistic l org cluster alert) o c a
  = if decide (for_alert o c a (org, cluster, alert))
    then Some (GoInt.incr (default 0 (count_of l o c a)))
    else count_of l o c a.
Proof.
  unfold count_of.
  destruct (decide (o = Organization.ID org ∧ c = Cluster.ID cluster))
    as [[-> ->]|Hne].
  - rewrite cluster_of_AddStatistic. simpl.
    destruct (decide (a = alert)) as [->|Ha].
    + rewrite decide_True by done.
      unfold ClusterStats.AddStatistic.
      destruct (cluster_of l (Organization.ID org) (Cluster.ID cluster))
        as [old|]; simpl.
      * destruct (ClusterStats.Alerts old !! alert); simpl;
          by rewrite lookup_insert_eq.
      * rewrite lookup_empty. simpl. by rewrite lookup_insert_eq.
    + rewrite decide_False by (unfold for_alert; simpl; intros (_ & _ & ?); done).
      rewrite ClusterStats_AddStatistic_frame by done.
      destruct (cluster_of l (Organization.ID org) (Cluster.ID cluster));
        simpl; [done|by rewrite lookup_empty].
  - rewrite cluster_of_AddStatistic_other by done.
    rewrite decide_False; [done|]. unfold for_alert. simpl.
    intros (<- & <- & _). by apply Hne.
Qed.

Lemma calls_made_snoc P `{!∀ t, Decision (P t)} triples t :
  calls_made P (triples ++ [t])
  = calls_made P triples + (if decide (P t) then 1 else 0).
Proof.
  unfold calls_made. rewrite filter_app, length_app.
  rewrite filter_cons, filter_nil. destruct (decide (P t)); simpl; lia.
Qed.

Lemma calls_made_nonneg P `{!∀ t, Decision (P t)} triples : 0 ≤ calls_made P triples.
Proof. unfold calls_made. lia. Qed.

Lemma calls_made_Permutation P `{!∀ t, Decision (P t)} triples1 triples2 :
  triples1 ≡ₚ triples2 → calls_made P triples1 = calls_made P triples2.
Proof. intros Hperm. unfold calls_made. by rewrite Hperm. Qed.

Lemma ingest_onto_snoc l triples org cluster alert :
  ingest_onto l (triples ++ [(org, cluster, alert)])
  = OrganizationStatsList.AddStatistic (ingest_onto l triples) org cluster alert.
Proof. unfold ingest_onto. by rewrite foldl_snoc. Qed.

(** Every counter moves by the number of calls made for it. *)
Lemma ingest_onto_tallies l triples org cluster alert :
  org_total_of (ingest_onto l triples) org
    = counter_onto (org_total_of l org) (calls_made (for_org org) triples) ∧
  cluster_total_of (ingest_onto l triples) org cluster
    = counter_onto (cluster_total_of l org cluster)
                   (calls_made (for_cluster org cluster) triples) ∧
  count_of (ingest_onto l triples) org cluster alert
    = counter_onto (count_of l org cluster alert)
                   (calls_made (for_alert org cluster alert) triples).
Proof.
  induction triples as [|[[o c] a] triples (IHo & IHc & IHa)] using rev_ind.
  { done. }
  rewrite ingest_onto_snoc, org_total_of_AddStatistic,
    cluster_total_of_AddStatistic, count_of_AddStatistic, !calls_made_snoc.
  rewrite IHo, IHc, IHa.
  repeat split; case_decide; rewrite ?Z.add_0_r; try done;
    apply incr_counter_onto, calls_made_nonneg.
Qed.

(** X1.  After any sequence of [AddStatistic] calls on a fresh list, the
    total of an organization is the number of calls made for it, the
    total of a cluster the number of calls made for it under that
    organization, and the count of an alert the number of calls made with
    that very triple (each as a Go [int]); where no call was made there
    is no entry. *)
Theorem ingest_counts_calls triples org cluster alert :
  org_total_of (ingest triples) org
    = counter_after (calls_made (for_org org) triples) ∧
  cluster_total_of (ingest triples) org cluster
    = counter_after (calls_made (for_cluster org cluster) triples) ∧
  count_of (ingest triples) org cluster alert
    = counter_after (calls_made (for_alert org cluster alert) triples).
Proof.
  destruct (ingest_onto_tallies OrganizationStatsList.NewOrganizationStatsList
              triples org cluster alert) as (Ho & Hc & Ha).
  change (ingest_onto OrganizationStatsList.NewOrganizationStatsList triples)
    with (ingest triples) in *.
  rewrite Ho, Hc, Ha. unfold org_total_of, cluster_total_of, count_of, cluster_of.
  simpl. rewrite lookup_empty. simpl. by rewrite !counter_onto_None.
Qed.

(** X2.  Whatever a list already holds, the totals and counts that further
    [AddStatistic] calls leave do not depend on the order of those calls. *)
Theorem ingest_order_insensitive l triples1 triples2 org cluster alert :
  triples1 ≡ₚ triples2 →
  org_total_of (ingest_onto l triples1) org
    = org_total_of (ingest_onto l triples2) org ∧
  cluster_total_of (ingest_onto l triples1) org cluster
    = cluster_total_of (ingest_onto l triples2) org cluster ∧
  count_of (ingest_onto l triples1) org cluster alert
    = count_of (ingest_onto l triples2) org cluster alert.
Proof.
  intros Hperm.
  destruct (ingest_onto_tallies l triples1 org cluster alert) as (-> & -> & ->).
  destruct (ingest_onto_tallies l triples2 org cluster alert) as (-> & -> & ->).
  by rewrite !(calls_made_Permutation _ _ _ Hperm).
Qed.

Lemma ingest_order_insensitive_witness :
  count_of (ingest_onto OrganizationStatsList.NewOrganizationStatsList
              Scenario.triples) "orgA" "clusterX" "AlertFoo"
  = count_of (ingest_onto OrganizationStatsList.NewOrganizationStatsList
                (reverse Scenario.triples)) "orgA" "clusterX" "AlertFoo".
Proof.
  apply (ingest_order_insensitive OrganizationStatsList.NewOrganizationStatsList
           Scenario.triples (reverse Scenario.triples)).
  symmetry. apply reverse_Permutation.
Defined.

(** ** Whose name is kept *)

(** X3.  The identity stored with an organization, and with a cluster of
    an organization, is the one handed over by the first call made for it:
    identities that later calls bring under the same ID are ignored. *)
Theorem ingest_keeps_first_identity triples org cluster :
  OrganizationStats.Organization
    <$> OrganizationStatsList.Items (ingest triples) !! org
  = (λ t, t.1.1) <$> head (filter (for_org org) triples) ∧
  ClusterStats.Cluster <$> cluster_of (ingest triples) org cluster
  = (λ t, t.1.2) <$> head (filter (for_cluster org cluster) triples).
Proof.
  induction triples as [|[[o c] a] triples [IHo IHc]] using rev_ind.
  { split; unfold ingest, cluster_of; simpl; by rewrite lookup_empty. }
  rewrite ingest_snoc, !filter_app, !head_app, !filter_cons, !filter_nil.
  split.
  - unfold OrganizationStatsList.AddStatistic. simpl.
    destruct (decide (for_org org (o, c, a))) as [Heq|Hne]; simpl.
    + unfold for_org in Heq. simpl in Heq. subst org.
      rewrite lookup_insert_eq. simpl.
      revert IHo.
      destruct (OrganizationStatsList.Items (ingest triples)
                  !! Organization.ID o);
        destruct (head (filter (for_org (Organization.ID o)) triples));
        simpl; intros Heq; first [exact Heq|discriminate|done].
    + rewrite lookup_insert_ne by done. rewrite IHo.
      by destruct (head (filter (for_org org) triples)).
  - destruct (decide (for_cluster org cluster (o, c, a))) as [Heq|Hne].
    + destruct Heq as [Ho Hc]. simpl in Ho, Hc. subst org cluster.
      rewrite cluster_of_AddStatistic. simpl.
      revert IHc.
      destruct (cluster_of (ingest triples) (Organization.ID o) (Cluster.ID c));
        destruct (head (filter (for_cluster (Organization.ID o) (Cluster.ID c))
                          triples));
        simpl; intros Heq; unfold ClusterStats.AddStatistic;
        case_match; simpl; first [exact Heq|discriminate|done].
    + simpl. rewrite cluster_of_AddStatistic_other
        by (intros [-> ->]; by apply Hne).
      rewrite IHc. by destruct (head (filter (for_cluster org cluster) triples)).
Qed.

(** ** More on the ranked queries *)



Section more_ranked.
Context `{SliceSorter}.



End more_ranked.



(** ** The loop of [Analyze], entry by entry *)

Section entries.
Context `{Collaborators}.
Import OrgAnalyzer.


Lemma filterAndAdd_outcome org cluster alert s :
  let s' := filterAndAdd org cluster alert s in
  SearchRegex (self s') = SearchRegex (self s) ∧
  TotalEntries (self s') = TotalEntries (self s) ∧
  ((Stats (self s') = Stats (self s) ∧
    SkippedEntries (self s') = GoInt.incr (SkippedEntries (self s))) ∨
   (Stats (self s') = Stats (self s) ∧
    SkippedEntries (self s') = SkippedEntries (self s) ∧
    SearchRegex (self s) ≠ ""%string) ∨
   (Stats (self s')
      = OrganizationStatsList.AddStatistic (Stats (self s)) org cluster alert ∧
    SkippedEntries (self s') = SkippedEntries (self s))).
Proof.
  cbv zeta. unfold filterAndAdd.
  destruct (String.eqb (SearchRegex (self s)) "") eqn:Hpattern; simpl.
  { split; [done|]. split; [done|]. by right; right. }
  apply String.eqb_neq in Hpattern.
  repeat case_match; simpl; (split; [done|]; split; [done|]);
    first [by left|by right; left|by right; right].
Qed.

(** Every entry read is counted; it is then skipped, or passed over by the
    search filter, or added to the statistics. *)
Lemma analyzeEntry_outcome read s s' :
  analyzeEntry read s = Some s' →
  SearchRegex (self s') = SearchRegex (self s) ∧
  TotalEntries (self s') = GoInt.incr (TotalEntries (self s)) ∧
  ((Stats (self s') = Stats (self s) ∧
    SkippedEntries (self s') = GoInt.incr (SkippedEntries (self s))) ∨
   (Stats (self s') = Stats (self s) ∧
    SkippedEntries (self s') = SkippedEntries (self s) ∧
    SearchRegex (self s) ≠ ""%string) ∨
   (∃ org cluster alert,
      Stats (self s')
        = OrganizationStatsList.AddStatistic (Stats (self s)) org cluster alert ∧
      SkippedEntries (self s') = SkippedEntries (self s))).
Proof.
  unfold analyzeEntry. destruct read as [entry|err].
  - destruct (parseEntry entry) as [[clusterID alert]|]; simpl; [|done].
    repeat case_match; intros [= <-]; simpl;
      try (split; [done|]; split; [done|]; by left).
    match goal with
    | |- context [filterAndAdd ?org ?cluster ?alert ?s0] =>
        destruct (filterAndAdd_outcome org cluster alert s0)
          as (-> & -> & [[-> ->]|[(-> & -> & ?)|[-> ->]]])
    end; simpl; (split; [done|]; split; [done|]);
      first [by left|by right; left|right; right; by eexists _, _, _].
  - intros [= <-]. simpl. split; [done|]. split; [done|]. by left.
Qed.



Lemma skipHeader_spec report s :
  (skipHeader report s).1 = tail report ∧
  self (skipHeader report s).2 = self s.
Proof. unfold skipHeader. by repeat case_match. Qed.



End entries.

(** ** Alerts recorded, entries skipped, entries read *)

Lemma recorded_AddStatistic (l : OrganizationStatsList.t) org cluster alert :
  (∀ id st, OrganizationStatsList.Items l !! id = Some st →
            0 ≤ OrganizationStats.TotalAlerts st) →
  sum_over OrganizationStats.TotalAlerts (OrganizationStatsList.Items l)
    < GoInt.MaxInt →
  let l' := OrganizationStatsList.AddStatistic l org cluster alert in
  (∀ id st, OrganizationStatsList.Items l' !! id = Some st →
            0 ≤ OrganizationStats.TotalAlerts st) ∧
  sum_over OrganizationStats.TotalAlerts (OrganizationStatsList.Items l')
  = sum_over OrganizationStats.TotalAlerts (OrganizationStatsList.Items l) + 1.
Proof.
  intros Hpos Hmax. cbv zeta.
  unfold OrganizationStatsList.AddStatistic. simpl.
  pose proof (sum_over_nonneg OrganizationStats.TotalAlerts _ Hpos) as Hsum.
  destruct (OrganizationStatsList.Items l !! Organization.ID org)
    as [found|] eqn:Hfound.
  - pose proof (Hpos _ _ Hfound) as H0.
    pose proof (sum_over_bounds OrganizationStats.TotalAlerts _ _ _ Hpos Hfound)
      as Hle.
    assert (OrganizationStats.TotalAlerts
              (OrganizationStats.AddStatistic found cluster alert)
            = OrganizationStats.TotalAlerts found + 1) as Hnew
      by (simpl; apply incr_exact; lia).
    split.
    + intros id st. destruct (decide (id = Organization.ID org)) as [->|Hne].
      * rewrite lookup_insert_eq. intros [= <-]. rewrite Hnew. lia.
      * rewrite lookup_insert_ne by done. apply Hpos.
    + rewrite (sum_over_insert_present _ _ _ _ found Hfound), Hnew. lia.
  - split.
    + intros id st. destruct (decide (id = Organization.ID org)) as [->|Hne].
      * rewrite lookup_insert_eq. by intros [= <-].
      * rewrite lookup_insert_ne by done. apply Hpos.
    + rewrite sum_over_insert_fresh by done. simpl.
      change (GoInt.incr 0) with 1. lia.
Qed.

Section accounting.
Context `{Collaborators}.
Import OrgAnalyzer.

Lemma analyzeEntry_accounted read s s' :
  accounted (self s) → TotalEntries (self s) < GoInt.MaxInt →
  analyzeEntry read s = Some s' →
  accounted (self s') ∧
  TotalEntries (self s') = TotalEntries (self s) + 1 ∧
  SearchRegex (self s') = SearchRegex (self s) ∧
  (SearchRegex (self s) = ""%string →
   recorded (self s) + SkippedEntries (self s) = TotalEntries (self s) →
   recorded (self s') + SkippedEntries (self s') = TotalEntries (self s')).
Proof.
  unfold accounted, recorded. intros (Hpos & Hskipped & Hle) Hmax Hentry.
  pose proof (sum_over_nonneg OrganizationStats.TotalAlerts _ Hpos) as Hsum.
  destruct (analyzeEntry_outcome _ _ _ Hentry)
    as (Hpattern & Htotal & [[Hstats Hs]|[(Hstats & Hs & Hfilter)
                                         |(org & cluster & alert & Hstats & Hs)]]).
  - rewrite Hstats, Hs, Htotal, !incr_exact by lia.
    repeat split; [done|lia|lia|done|lia].
  - rewrite Hstats, Hs, Htotal, !incr_exact by lia.
    repeat split; [done|lia|lia|done|done].
  - destruct (recorded_AddStatistic (Stats (self s)) org cluster alert Hpos)
      as [Hpos' Hsum']; [lia|].
    rewrite Hstats, Hs, Htotal, Hsum', !incr_exact by lia.
    repeat split; [done|lia|lia|done|lia].
Qed.

Lemma analyzeLoop_accounted report s s' :
  accounted (self s) →
  TotalEntries (self s) + Z.of_nat (length report) ≤ GoInt.MaxInt →
  analyzeLoop report s = Some s' →
  accounted (self s') ∧
  (SearchRegex (self s) = ""%string →
   recorded (self s) + SkippedEntries (self s) = TotalEntries (self s) →
   recorded (self s') + SkippedEntries (self s') = TotalEntries (self s')).
Proof.
  revert s. induction report as [|read report IH]; intros s Hacc Hmax.
  - by intros [= <-].
  - cbn [analyzeLoop]. destruct (analyzeEntry read s) as [s1|] eqn:Hentry;
      [|done].
    simpl. simpl length in Hmax. intros Hloop.
    destruct (analyzeEntry_accounted _ _ _ Hacc ltac:(lia) Hentry)
      as (Hacc1 & Htotal1 & Hpattern1 & Heq1).
    destruct (IH s1 Hacc1 ltac:(lia) Hloop) as [Hacc' Heq'].
    split; [done|]. intros Hpattern Heq. apply Heq'; [congruence|auto].
Qed.

(** X8.  However a run of [Analyze] ends, the alerts recorded and the
    entries skipped never add up to more than the entries read, and
    without a search pattern they add up to exactly that many: every entry
    read is then either skipped or recorded once. *)
Theorem Analyze_accounts_for_entries path report s err s' :
  accounted (self s) →
  TotalEntries (self s) + Z.of_nat (length report) ≤ GoInt.MaxInt →
  ReadFile path = Ok report →
  Analyze path s = Some (err, s') →
  accounted (self s') ∧
  (SearchRegex (self s) = ""%string →
   recorded (self s) + SkippedEntries (self s) = TotalEntries (self s) →
   recorded (self s') + SkippedEntries (self s') = TotalEntries (self s')).
Proof.
  intros Hacc Hmax Hopen. unfold Analyze. rewrite Hopen.
  destruct CreateConnection as [[]|e]; [|by intros [= <- <-]].
  pose proof (skipHeader_spec report
                (called CallCreateConnection (called (CallReadFile path) s)))
    as [Htail Hself].
  destruct (skipHeader report _) as [rest s0]. simpl in Htail, Hself.
  subst rest.
  destruct (analyzeLoop (tail report) s0) as [s1|] eqn:Hloop; simpl; [|done].
  intros [= <- <-].
  assert (length (tail report) ≤ length report)%nat
    by (destruct report; simpl; lia).
  rewrite <-Hself.
  apply (analyzeLoop_accounted (tail report) s0 s1); rewrite ?Hself;
    [done|lia|done].
Qed.

(** X9.  An entry that parses and resolves is added to the statistics, and
    counted as read but not as skipped, when there is no search pattern,
    and also when the pattern evaluates on both the organization's name
    and its ID and matches at least one of them. *)
Theorem search_filter_admits (s : State) entry clusterID alert cluster
    orgID org :
  parseEntry entry = Some (clusterID, alert) →
  GetCluster clusterID = Ok cluster →
  GetOrgIDFromCluster cluster = Ok orgID →
  GetOrgFromID orgID = Ok org →
  SearchRegex (self s) = ""%string ∨
  (∃ matchName matchID,
     MatchString (SearchRegex (self s)) (Organization.Name org) = Ok matchName ∧
     MatchString (SearchRegex (self s)) (Organization.ID org) = Ok matchID ∧
     matchName || matchID = true) →
  ∃ s', analyzeEntry (Record_ entry) s = Some s' ∧
        Stats (self s')
        = OrganizationStatsList.AddStatistic (Stats (self s)) org cluster alert ∧
        SkippedEntries (self s') = SkippedEntries (self s) ∧
        TotalEntries (self s') = GoInt.incr (TotalEntries (self s)).
Proof.
  intros Hparse Hcluster HorgID Horg Hadmit. eexists. split.
  { unfold analyzeEntry. rewrite Hparse. simpl.
    by rewrite Hcluster, HorgID, Horg. }
  unfold filterAndAdd. simpl.
  destruct Hadmit as [->|(matchName & matchID & -> & -> & Hmatch)].
  - done.
  - destruct (String.eqb (SearchRegex (self s)) ""); [done|].
    by destruct matchName, matchID.
Qed.

End accounting.

Lemma Analyze_accounts_for_entries_witness :
  ∃ s', @OrgAnalyzer.Analyze Stub.collaborators "report.csv" (Stub.searching "")
        = Some (None, s') ∧
        recorded (OrgAnalyzer.self s')
          + OrgAnalyzer.SkippedEntries (OrgAnalyzer.self s')
        = OrgAnalyzer.TotalEntries (OrgAnalyzer.self s').
Proof.
  eexists. split; [vm_compute; reflexivity|].
  eapply (@Analyze_accounts_for_entries Stub.collaborators "report.csv"
            [Record_ Stub.row; Record_ Stub.row] (Stub.searching "") None).
  - split; [|split].
    + intros id st. simpl. by rewrite lookup_empty.
    + done.
    + unfold recorded. simpl. by rewrite sum_over_empty.
  - vm_compute. discriminate.
  - reflexivity.
  - vm_compute. reflexivity.
  - reflexivity.
  - unfold recorded. simpl. by rewrite sum_over_empty.
Defined.

Lemma search_filter_admits_witness :
  ∃ s', @OrgAnalyzer.analyzeEntry Stub.collaborators (Record_ Stub.row)
          (Stub.searching "orgA") = Some s' ∧
        OrgAnalyzer.SkippedEntries (OrgAnalyzer.self s') = 0.
Proof.
  destruct (@search_filter_admits Stub.collaborators (Stub.searching "orgA")
              Stub.row "clusterX" "AlertFoo" Scenario.clusterX "orgA"
              Scenario.orgA)
    as (s' & Hs' & _ & Hskipped & _); try reflexivity.
  - right. exists false, true. by repeat split.
  - exists s'. by split.
Defined.



(** ** The percentages at their edges *)

(** A quotient of two 64-bit integers, the second not zero, times 100 is a
    number. *)
Lemma percentage_not_nan a b :
  - 2 ^ 64 < a < 2 ^ 64 → b ≠ 0 → - 2 ^ 64 < b < 2 ^ 64 →
  float32.is_nan
    (float32.mul (float32.div (float32.of_int a) (float32.of_int b))
                 float32.c100) = false.
Proof.
  intros Ha Hb0 Hb.
  destruct (of_int_finite b Hb0 Hb) as (mb & eb & Hfb).
  assert (∃ x, float32.of_int a = x ∧ x ≠ S754_nan ∧
               ∀ sx, x ≠ S754_infinity sx) as (x & Hx & Hxn & Hxi).
  { destruct (decide (a = 0)) as [->|Hne].
    - eexists. split; [apply of_int_0|]. by split.
    - destruct (of_int_finite a Hne Ha) as (ma & ea & Hfa).
      eexists. split; [exact Hfa|]. by split. }
  rewrite Hx, Hfb, c100_finite. unfold float32.mul, float32.div.
  destruct (SFmul float32.prec float32.emax
              (SFdiv float32.prec float32.emax x (S754_finite (b <? 0) mb eb))
              (S754_finite false 13107200 (-17))) eqn:Hmul; try done.
  apply SFmul_not_nan in Hmul
    as [Hdiv|[?|[(? & ? & _ & ?)|(? & ? & _ & ?)]]]; try done.
  apply SFdiv_not_nan in Hdiv
    as [?|[?|[(? & ? & _ & ?)|(? & ? & _ & ?)]]]; done.
Qed.

(** A quotient by zero times 100 is NaN for 0/0 and else an infinity of
    the sign of the numerator. *)
Lemma percentage_of_none a :
  - 2 ^ 64 < a < 2 ^ 64 →
  float32.mul (float32.div (float32.of_int a) (float32.of_int 0)) float32.c100
  = if decide (a = 0) then S754_nan else S754_infinity (a <? 0).
Proof.
  intros Ha. destruct (decide (a = 0)) as [->|Hne]; [reflexivity|].
  destruct (of_int_finite a Hne Ha) as (ma & ea & ->).
  rewrite of_int_0, c100_finite. simpl. by destruct (a <? 0).
Qed.

Lemma wrap_sub_0 t s :
  GoInt.InRange t → GoInt.InRange s → GoInt.sub t s = 0 → t = s.
Proof.
  unfold GoInt.InRange, GoInt.MinInt, GoInt.MaxInt, GoInt.sub, GoInt.wrap.
  intros Ht Hs Hwrap.
  pose proof (Z.div_mod (t - s + 2 ^ 63) (2 ^ 64) ltac:(lia)) as Hdiv.
  assert ((t - s + 2 ^ 63) mod 2 ^ 64 = 2 ^ 63) as Hmod by lia.
  rewrite Hmod in Hdiv.
  assert ((t - s + 2 ^ 63) / 2 ^ 64 = 0); [|lia].
  set (q := (t - s + 2 ^ 63) / 2 ^ 64) in *. nia.
Qed.

(** X10.  [CalculatePercentageOfTotal] divides by [TotalEntries] unguarded:
    with no entry read it returns NaN for a count of zero and an infinity
    for any other count, and with entries read it returns a number. *)
Theorem CalculatePercentageOfTotal_without_entries (o : OrgAnalyzer.t) count :
  GoInt.InRange count → GoInt.InRange (OrgAnalyzer.TotalEntries o) →
  (OrgAnalyzer.TotalEntries o = 0 →
   OrgAnalyzer.CalculatePercentageOfTotal o count
   = if decide (count = 0) then S754_nan else S754_infinity (count <? 0)) ∧
  (OrgAnalyzer.TotalEntries o ≠ 0 →
   float32.is_nan (OrgAnalyzer.CalculatePercentageOfTotal o count) = false).
Proof.
  unfold GoInt.InRange, GoInt.MinInt, GoInt.MaxInt.
  intros Hcount Htotal. unfold OrgAnalyzer.CalculatePercentageOfTotal. split.
  - intros ->. apply percentage_of_none. lia.
  - intros Hne. apply percentage_not_nan; lia.
Qed.

(** X11.  [CalculatePercentageOfAnalyzed] divides by
    [TotalEntries - SkippedEntries] unguarded: when every entry read was
    skipped it returns NaN for a count of zero and an infinity for any
    other count, and otherwise it returns a number. *)
Theorem CalculatePercentageOfAnalyzed_all_skipped (o : OrgAnalyzer.t) count :
  GoInt.InRange count →
  GoInt.InRange (OrgAnalyzer.TotalEntries o) →
  GoInt.InRange (OrgAnalyzer.SkippedEntries o) →
  (OrgAnalyzer.TotalEntries o = OrgAnalyzer.SkippedEntries o →
   OrgAnalyzer.CalculatePercentageOfAnalyzed o count
   = if decide (count = 0) then S754_nan else S754_infinity (count <? 0)) ∧
  (OrgAnalyzer.TotalEntries o ≠ OrgAnalyzer.SkippedEntries o →
   float32.is_nan (OrgAnalyzer.CalculatePercentageOfAnalyzed o count) = false).
Proof.
  intros Hcount Htotal Hskipped.
  unfold OrgAnalyzer.CalculatePercentageOfAnalyzed. cbv zeta. split.
  - intros ->. unfold GoInt.sub. rewrite Z.sub_diag.
    change (GoInt.wrap 0) with 0.
    apply percentage_of_none.
    unfold GoInt.InRange, GoInt.MinInt, GoInt.MaxInt in Hcount. lia.
  - intros Hne.
    pose proof (wrap_InRange (OrgAnalyzer.TotalEntries o
                              - OrgAnalyzer.SkippedEntries o)) as Hrange.
    fold (GoInt.sub (OrgAnalyzer.TotalEntries o) (OrgAnalyzer.SkippedEntries o))
      in Hrange.
    apply percentage_not_nan.
    + unfold GoInt.InRange, GoInt.MinInt, GoInt.MaxInt in Hcount. lia.
    + intros Hzero. by apply Hne, wrap_sub_0.
    + unfold GoInt.InRange, GoInt.MinInt, GoInt.MaxInt in Hrange. lia.
Qed.

Lemma CalculatePercentageOfTotal_without_entries_witness :
  float32.is_nan
    (OrgAnalyzer.CalculatePercentageOfTotal Scenario.analyzer 3) = false.
Proof.
  apply (CalculatePercentageOfTotal_without_entries Scenario.analyzer 3);
    vm_compute; try split; discriminate.
Defined.

Lemma CalculatePercentageOfAnalyzed_all_skipped_witness :
  float32.is_nan
    (OrgAnalyzer.CalculatePercentageOfAnalyzed Scenario.analyzer 3) = false.
Proof.
  apply (CalculatePercentageOfAnalyzed_all_skipped Scenario.analyzer 3);
    vm_compute; try split; discriminate.
Defined.

(** ** The summaries and the command *)

Section summaries.
Context `{SliceSorter}.
Import OrgAnalyzer.

(** X12.  When no entry was skipped, neither textual summary writes the
    warning, and neither writes anything else to the error stream: also
    when no entry was read at all, where the percentage printed is NaN. *)
Theorem no_skipped_entry_no_warning (o : t) w :
  SkippedEntries o = 0 → GoInt.InRange (TotalEntries o) →
  printShortSummary o (Some w) ∨ printLongSummary o (Some w) →
  ErrOut w = [].
Proof.
  intros Hskipped Htotal Hprinted.
  assert (ErrOut w = ErrOut (summaryHead o)) as ->
    by (destruct Hprinted;
        [by apply printShortSummary_ErrOut|by apply printLongSummary_ErrOut]).
  unfold summaryHead, CalculateSkipPercentage. simpl. rewrite Hskipped.
  destruct (decide (TotalEntries o = 0)) as [->|Hne]; [done|].
  destruct (of_int_finite (TotalEntries o) Hne) as (m & e & ->).
  { unfold GoInt.InRange, GoInt.MinInt, GoInt.MaxInt in Htotal. lia. }
  rewrite of_int_0, c100_finite. simpl.
  by destruct (TotalEntries o <? 0).
Qed.

End summaries.

Lemma no_skipped_entry_no_warning_witness :
  ∃ w, @OrgAnalyzer.printShortSummary insertion_sorter
         (Stub.with_output "short") (Some w) ∧
       ErrOut w = [].
Proof.
  assert (@OrgAnalyzer.printShortSummary insertion_sorter
            (Stub.with_output "short")
            (Some (write (OrgAnalyzer.summaryHead (Stub.with_output "short"))
                         {| Out := []; ErrOut := [] |}))) as Hprinted.
  { exists (Some []). split; [|reflexivity].
    exists []. split; [by red|by vm_compute]. }
  eexists. split; [exact Hprinted|].
  apply (@no_skipped_entry_no_warning insertion_sorter
           (Stub.with_output "short"));
    [reflexivity|vm_compute; split; discriminate|by left].
Defined.

Section command_composes.
Context `{Collaborators} `{SliceSorter} `{OrgAnalyzer.Marshallers}.
Import OrgAnalyzer.



(** X14.  When the report cannot be opened, or OCM cannot be reached, the
    command returns an "encountered unrecoverable error" with the analyzer
    as it was and nothing written: no record is read, nothing is looked up
    and no summary is printed. *)
Theorem RunE_stops_when_Analyze_fails (analyzer : t) (path : string) r err :
  validateAnalyzer analyzer = None →
  ReadFile path = Error err ∨
  ((∃ report, ReadFile path = Ok report) ∧ CreateConnection = Error err) →
  RunE analyzer path r →
  ∃ msg s,
    r = Some (Some ("encountered unrecoverable error while analyzing file '"
                    +:+ path +:+ "': " +:+ msg)%string, s) ∧
    self s = analyzer ∧ streams s = no_output ∧
    Forall (λ c, c = CallReadFile path ∨ c = CallCreateConnection) (calls s).
Proof.
  intros Hvalid Hfail. unfold RunE, Analyze. rewrite Hvalid.
  destruct Hfail as [->|[[report ->] ->]]; intros ->;
    eexists _, _; (split; [reflexivity|]); simpl;
    (split; [done|]; split; [done|]);
    repeat (apply Forall_cons; split; [auto|]); apply Forall_nil_2.
Qed.

End command_composes.


Lemma RunE_stops_when_Analyze_fails_witness :
  ∃ msg s,
    Some (Some "encountered unrecoverable error while analyzing file 'report.csv': failed to open report file 'report.csv': no such file or directory"%string,
          {| OrgAnalyzer.self := Stub.with_output "long";
             OrgAnalyzer.streams := no_output;
             OrgAnalyzer.calls := [CallReadFile "report.csv"] |})
    = Some (Some ("encountered unrecoverable error while analyzing file '"
                  +:+ "report.csv" +:+ "': " +:+ msg)%string, s) ∧
    OrgAnalyzer.self s = Stub.with_output "long" ∧
    OrgAnalyzer.streams s = no_output ∧
    Forall (λ c, c = CallReadFile "report.csv" ∨ c = CallCreateConnection)
           (OrgAnalyzer.calls s).
Proof.
  apply (@RunE_stops_when_Analyze_fails Offline.collaborators insertion_sorter
           Stub.marshallers (Stub.with_output "long") "report.csv" _
           "no such file or directory"); [reflexivity|by left|reflexivity].
Defined.

(** ** The length of the short summary *)

Lemma shortBlock_lines (orgs : list OrganizationStats.t) :
  length (orgs ≫= OrgAnalyzer.shortBlock) = (3 * length orgs)%nat.
Proof.
  induction orgs as [|org orgs IH]; [done|].
  rewrite bind_cons, length_app, IH. simpl. lia.
Qed.

Lemma cut_length {A : Type} (sorted : list A) (n : Z) :
  Z.of_nat (length sorted) ≤ GoInt.MaxInt →
  ∃ top, cut sorted n = Some top ∧
         Z.of_nat (length top) = shown (Z.of_nat (length sorted)) n.
Proof.
  intros Hfits. unfold cut, shown.
  destruct ((n <=? 0) || (n >? Z.of_nat (length sorted))) eqn:Hn.
  - by eexists.
  - apply orb_false_iff in Hn as [Hpos Hle].
    apply Z.leb_gt in Hpos. rewrite Z.gtb_ltb in Hle. apply Z.ltb_ge in Hle.
    rewrite slice_from_in_range by done.
    eexists. split; [done|]. rewrite length_drop. lia.
Qed.

Section short_summary.
Context `{SliceSorter}.
Import OrgAnalyzer.

(** X15.  The short summary never panics, and it is as long as the number
    of organizations asked for says: the three lines of the head, then
    three lines for each organization shown, which are all of them when
    [NumOrgs] is not positive or exceeds their number, and [NumOrgs] of
    them otherwise. *)
Theorem printShortSummary_length (o : t) w :
  fits (OrganizationStatsList.Items (Stats o)) →
  printShortSummary o w →
  ∃ s, w = Some s ∧
       Z.of_nat (length (Out s))
       = 3 + 3 * shown (Z.of_nat (size (OrganizationStatsList.Items (Stats o))))
                       (NumOrgs o).
Proof.
  intros Hfits (topOrgs & (visited & Hv & ->) & ->).
  destruct (sorted_stats _ _ Hv) as (_ & _ & Hlen). simpl in Hlen.
  rewrite TopOrgs_of_cut.
  destruct (cut_length (sort_Slice OrganizationStatsList.less visited.*2)
              (NumOrgs o)) as (top & -> & Htop).
  { rewrite Hlen. exact Hfits. }
  eexists. split; [reflexivity|].
  simpl. rewrite shortBlock_lines. rewrite Hlen in Htop. lia.
Qed.

End short_summary.

Lemma printShortSummary_length_witness :
  ∃ s, (orgs ← @OrganizationStatsList.TopOrgs_of insertion_sorter
                  (values (OrganizationStatsList.Items
                             (OrgAnalyzer.Stats Scenario.analyzer))) 1;
        Some (write (OrgAnalyzer.summaryHead Scenario.analyzer)
                {| Out := orgs ≫= OrgAnalyzer.shortBlock; ErrOut := [] |}))
       = Some s ∧
       Z.of_nat (length (Out s)) = 6.
Proof.
  destruct (@printShortSummary_length insertion_sorter
              {| OrgAnalyzer.Stats := ingest Scenario.triples;
                 OrgAnalyzer.SkippedEntries := 1;
                 OrgAnalyzer.TotalEntries := 5;
                 OrgAnalyzer.Output := "short"; OrgAnalyzer.NumOrgs := 1;
                 OrgAnalyzer.SearchRegex := "" |}
              (orgs ← @OrganizationStatsList.TopOrgs_of insertion_sorter
                  (values (OrganizationStatsList.Items
                             (OrgAnalyzer.Stats Scenario.analyzer))) 1;
               Some (write (OrgAnalyzer.summaryHead Scenario.analyzer)
                       {| Out := orgs ≫= OrgAnalyzer.shortBlock;
                          ErrOut := [] |})))
    as (s & Hs & Hlen).
  - vm_compute. discriminate.
  - eexists. split; [|reflexivity].
    eexists. split; [by red|reflexivity].
  - exists s. split; [exact Hs|exact Hlen].
Defined.

(** * Properties of the promote command *)

(** ** The cached base directory *)

(** X16.  Once [GetBaseDir] has returned a directory, it returns that
    directory on every later call without asking the operating system
    again, whatever the working directory has become. *)
Theorem GetBaseDir_caches getwd baseDir dir baseDir' :
  git.GetBaseDir getwd baseDir = (Ok dir, baseDir') → dir ≠ ""%string →
  ∀ getwd', git.GetBaseDir getwd' baseDir' = (Ok dir, baseDir').
Proof.
  unfold git.GetBaseDir. intros Hfirst Hdir getwd'.
  assert (baseDir' = dir) as ->.
  { destruct (String.eqb baseDir ""); [|congruence].
    destruct getwd as [d [e|]]; congruence. }
  by rewrite (proj2 (String.eqb_neq dir "") Hdir).
Qed.

Lemma GetBaseDir_caches_witness :
  git.GetBaseDir ("/elsewhere"%string, None) "/app-interface"
  = (Ok "/app-interface"%string, "/app-interface"%string).
Proof.
  apply (GetBaseDir_caches ("/app-interface"%string, None) ""
           "/app-interface" "/app-interface"); [reflexivity|discriminate].
Defined.

(** ** Looking a service up *)

Lemma findService_spec services serviceName :
  (promote.findService services serviceName).2 = None ↔ serviceName ∈ services.
Proof.
  induction services as [|service services IH]; simpl.
  - split; [done|]. by intros ?%elem_of_nil.
  - rewrite elem_of_cons.
    destruct (String.eqb_spec service serviceName) as [->|Hne]; simpl.
    + split; auto.
    + rewrite IH. split; [auto|]. by intros [?|?].
Qed.

(** X17.  [validateServiceName] returns no error exactly when the name is
    one of the services; otherwise its error is "service ... not found"
    and it has printed nothing but the line that announces the check. *)
Theorem validateServiceName_finds services serviceName :
  ((promote.validateServiceName services serviceName).2 = None
   ↔ serviceName ∈ services) ∧
  (serviceName ∉ services →
   promote.validateServiceName services serviceName
   = (["### Checking if service " +:+ serviceName +:+ " exists ###"],
      Some ("service " +:+ serviceName +:+ " not found"))).
Proof.
  unfold promote.validateServiceName. split.
  - rewrite <-findService_spec.
    by destruct (promote.findService services serviceName).
  - induction services as [|service services IH]; intros Hnot; simpl; [done|].
    apply not_elem_of_cons in Hnot as [Hne Hnot].
    destruct (String.eqb_spec service serviceName) as [->|_]; [done|].
    by apply IH.
Qed.

Section traversal.
Context `{FilePath}.

Lemma namesIn_spec baseDir saaDirs services names err :
  promote.namesIn baseDir saaDirs services = (names, err) →
  (is_Some err → names = []) ∧
  (err = None →
   length names = (length services + length (globbed baseDir saaDirs))%nat).
Proof.
  revert services. induction saaDirs as [|dir saaDirs IH]; intros services;
    simpl.
  - intros [= <- <-]. split; [by intros [? ?]|]. intros _. lia.
  - destruct (Glob _) as [filepaths|e].
    + intros Hrest. destruct (IH _ Hrest) as [Herr Hok]. split; [done|].
      intros Hnone. rewrite (Hok Hnone), !length_app, length_fmap. lia.
    + intros [= <- <-]. split; [done|]. done.
Qed.

(** X18.  [GetServiceNames] is all or nothing: with an error it returns no
    name at all, also when the directories before the failing one held
    services; without an error it returns one name for every file that
    matches [saas-*] in the directories asked for. *)
Theorem GetServiceNames_all_or_nothing saaDirs baseDir names err baseDir' :
  promote.GetServiceNames saaDirs baseDir = (names, err, baseDir') →
  (is_Some err → names = []) ∧
  (err = None →
   ∃ dir, (git.GetBaseDir Getwd baseDir).1 = Ok dir ∧
          length names = length (globbed dir saaDirs)).
Proof.
  unfold promote.GetServiceNames.
  destruct (git.GetBaseDir Getwd baseDir) as [[dir|e] b]; simpl.
  - destruct (promote.namesIn dir saaDirs []) as [names0 err0] eqn:Hnames.
    intros [= <- <- <-].
    destruct (namesIn_spec _ _ _ _ _ Hnames) as [Herr Hok].
    split; [done|]. intros Hnone. exists dir. split; [done|]. by apply Hok.
  - intros [= <- <- <-]. split; [done|]. done.
Qed.

Lemma eachPath_files filepaths files :
  promote.eachPath (λ path files, (None, file_service files path))
                   filepaths files
  = (None, foldl file_service files filepaths).
Proof.
  revert files. induction filepaths as [|p filepaths IH]; intros files; simpl;
    [done|apply IH].
Qed.

Lemma eachDir_files baseDir saasDirs files :
  (promote.eachDir baseDir (λ path files, (None, file_service files path))
                   saasDirs files).2
  = foldl file_service files (globbed baseDir saasDirs).
Proof.
  revert files. induction saasDirs as [|dir saasDirs IH]; intros files; simpl;
    [done|].
  destruct (Glob _) as [filepaths|e]; [|done].
  rewrite eachPath_files, foldl_app. apply IH.
Qed.

Lemma lookup_foldl_file_service filepaths files name :
  foldl file_service files filepaths !! name
  = match last (filter (λ p, promote.serviceKey p = name) filepaths) with
    | Some p => Some p
    | None => files !! name
    end.
Proof.
  revert files. induction filepaths as [|p filepaths IH] using rev_ind;
    intros files; [done|].
  rewrite foldl_snoc, filter_app, filter_cons, filter_nil.
  unfold file_service at 1.
  destruct (decide (promote.serviceKey p = name)) as [<-|Hne].
  - by rewrite lookup_insert_eq, last_snoc.
  - rewrite lookup_insert_ne, app_nil_r by done. apply IH.
Qed.

(** X19.  [GetServiceFiles] never returns an error: when the base directory
    is unknown its map is empty, and when a directory cannot be globbed
    the map holds what the directories before it gave.  Each name is
    mapped to the last path visited that bears it, so a file of a later
    directory replaces one of the same name in an earlier directory. *)
Theorem GetServiceFiles_later_file_wins saasDirs baseDir files err baseDir' :
  promote.GetServiceFiles saasDirs baseDir = (files, err, baseDir') →
  err = None ∧
  match (git.GetBaseDir Getwd baseDir).1 with
  | Error _ => files = ∅
  | Ok dir =>
      ∀ name,
        files !! name
        = last (filter (λ p, promote.serviceKey p = name)
                       (globbed dir saasDirs))
  end.
Proof.
  unfold promote.GetServiceFiles, promote.traverseServiceFiles.
  destruct (git.GetBaseDir Getwd baseDir) as [[dir|e] b]; simpl.
  - pose proof (eachDir_files dir saasDirs ∅) as Hfiles.
    unfold file_service in Hfiles at 1.
    destruct (promote.eachDir dir _ saasDirs ∅) as [e files0].
    simpl in Hfiles. intros [= <- <- <-]. split; [done|].
    intros name. rewrite Hfiles, lookup_foldl_file_service, lookup_empty.
    by destruct (last _).
  - by intros [= <- <- <-].
Qed.

Lemma GetServiceFiles_empty baseDir :
  (promote.GetServiceFiles [] baseDir).1.1 = ∅ ∧
  (promote.GetServiceFiles [] baseDir).1.2 = None.
Proof.
  unfold promote.GetServiceFiles, promote.traverseServiceFiles.
  by destruct (git.GetBaseDir Getwd baseDir) as [[dir|e] b].
Qed.

(** X20.  [getSaasDir] asks [GetServiceFiles] for no directory, so the map
    it searches is empty: for every service name, both flags and every
    file system it returns the error "saas directory for service ... not
    found". *)
Theorem getSaasDir_never_finds serviceName osd hcp baseDir :
  (promote.getSaasDir serviceName osd hcp baseDir).1
  = Error ("saas directory for service " +:+ serviceName +:+ " not found").
Proof.
  unfold promote.getSaasDir.
  destruct (promote.GetServiceFiles [] baseDir) as [[files err] b] eqn:Hfiles.
  destruct (GetServiceFiles_empty baseDir) as [Hempty Herr].
  rewrite Hfiles in Hempty, Herr. simpl in *. subst. by rewrite lookup_empty.
Qed.

End traversal.

Lemma GetServiceNames_all_or_nothing_witness :
  (is_Some (Some "syntax error in pattern"%string) → @nil string = []) ∧
  (Some "syntax error in pattern"%string = None →
   ∃ dir, (git.GetBaseDir (@Getwd StubFS.filepath) "").1 = Ok dir ∧
          length (@nil string)
          = length (@globbed StubFS.filepath dir
                      [promote.OSDSaasDir; "["%string; promote.BPSaasDir])).
Proof.
  apply (@GetServiceNames_all_or_nothing StubFS.filepath
           [promote.OSDSaasDir; "["%string; promote.BPSaasDir] ""
           [] (Some "syntax error in pattern"%string) "/app-interface").
  reflexivity.
Defined.

Lemma GetServiceFiles_later_file_wins_witness :
  (@promote.GetServiceFiles StubFS.filepath
     [promote.OSDSaasDir; promote.BPSaasDir] "").1.1 !! "saas-foo"%string
  = Some ("/app-interface/" +:+ promote.BPSaasDir +:+ "/saas-foo.yaml").
Proof.
  exact (proj2 (@GetServiceFiles_later_file_wins StubFS.filepath
                  [promote.OSDSaasDir; promote.BPSaasDir] "" _ _ _ eq_refl)
               "saas-foo"%string).
Defined.

(** ** The hash that is promoted from *)

Lemma scanTargets_first cond targets currentGitHash :
  git.scanTargets cond targets currentGitHash
  = from_option git.Ref currentGitHash
      (head (filter (λ target, cond target = true) targets)).
Proof.
  induction targets as [|target targets IH]; simpl; [done|].
  rewrite filter_cons. destruct (cond target) eqn:Hcond.
  - by rewrite decide_True.
  - by rewrite decide_False by done.
Qed.

Lemma scanTemplates_last cond templates :
  git.scanTemplates cond templates
  = from_option git.Ref ""%string (last (omap (first_target cond) templates)).
Proof.
  unfold git.scanTemplates.
  induction templates as [|template templates IH] using rev_ind; [done|].
  rewrite foldl_snoc, omap_app, scanTargets_first, IH. simpl.
  fold (first_target cond template).
  destruct (first_target cond template) as [target|]; simpl.
  - by rewrite last_snoc.
  - by rewrite app_nil_r.
Qed.

Lemma GetCurrentGitHashFromAppInterface_scans service serviceName :
  git.GetCurrentGitHashFromAppInterface (Ok service) serviceName
  = let currentGitHash :=
      git.scanTemplates (production service) (git.ResourceTemplates service) in
    let serviceRepo :=
      from_option git.URL ""%string (head (git.ResourceTemplates service)) in
    if String.eqb currentGitHash "" then
      Some (Error ("production namespace not found for service "
                   +:+ serviceName))
    else if String.eqb serviceRepo "" then
      Some (Error ("service repo not found for service " +:+ serviceName))
    else Some (Ok (currentGitHash, serviceRepo)).
Proof.
  unfold git.GetCurrentGitHashFromAppInterface, production. cbv zeta.
  destruct (strings.Contains (git.Name service)
              "configuration-anomaly-detection");
    [|destruct (strings.Contains (git.Name service)
                  "rhobs-rules-and-dashboards")];
    by destruct (git.ResourceTemplates service).
Qed.

(** X21.  [GetCurrentGitHashFromAppInterface] succeeds exactly when some
    template has a production target with a non-empty ref and the first
    template has a URL.  The hash is then the ref of the first production
    target of the LAST template that has one, since [break] leaves only
    the loop over the targets; the repository is the URL of the FIRST
    template. *)
Theorem GetCurrentGitHashFromAppInterface_last_template_wins
    service serviceName hash repo :
  git.GetCurrentGitHashFromAppInterface (Ok service) serviceName
  = Some (Ok (hash, repo))
  ↔ (∃ target,
       last (omap (first_target (production service))
                  (git.ResourceTemplates service)) = Some target ∧
       git.Ref target = hash) ∧
    hash ≠ ""%string ∧
    (∃ template, head (git.ResourceTemplates service) = Some template ∧
                 git.URL template = repo) ∧
    repo ≠ ""%string.
Proof.
  rewrite GetCurrentGitHashFromAppInterface_scans, scanTemplates_last.
  cbv zeta.
  destruct (last _) as [target|]; simpl.
  - destruct (String.eqb_spec (git.Ref target) "") as [Href|Href].
    { split; [done|]. intros ((? & [= <-] & <-) & ? & _); done. }
    destruct (head _) as [template|]; simpl.
    + destruct (String.eqb_spec (git.URL template) "") as [Hurl|Hurl].
      { split; [done|]. intros (_ & _ & (? & [= <-] & <-) & ?); done. }
      split.
      * intros [= <- <-]. eauto 10.
      * by intros ((? & [= <-] & <-) & _ & (? & [= <-] & <-) & _).
    + split; [done|]. by intros (_ & _ & (? & ? & _) & _).
  - split; [done|]. by intros ((? & ? & _) & _).
Qed.

(** X22.  For a service of the RHOBS rules the condition of the inner loop
    reads the name of the SERVICE, not the namespace of the target: unless
    that name contains "rhobsp02ue1-production", no hash is found and the
    function fails with "production namespace not found", whatever the
    targets of the file are. *)
Theorem rhobs_hash_depends_on_service_name service serviceName :
  strings.Contains (git.Name service) "configuration-anomaly-detection"
  = false →
  strings.Contains (git.Name service) "rhobs-rules-and-dashboards" = true →
  strings.Contains (git.Name service) "rhobsp02ue1-production" = false →
  git.GetCurrentGitHashFromAppInterface (Ok service) serviceName
  = Some (Error ("production namespace not found for service "
                 +:+ serviceName)).
Proof.
  intros Hcad Hrhobs Hprod.
  rewrite GetCurrentGitHashFromAppInterface_scans, scanTemplates_last.
  cbv zeta.
  assert (∀ templates,
            omap (first_target (production service)) templates = [])
    as ->; [|done].
  intros templates.
  induction templates as [|template templates IH]; [done|].
  csimpl. rewrite IH.
  unfold first_target, production. rewrite Hcad, Hrhobs, Hprod.
  by induction (git.Targets template).
Qed.

Lemma rhobs_hash_depends_on_service_name_witness :
  git.GetCurrentGitHashFromAppInterface (Ok rhobs) "rhobs"
  = Some (Error "production namespace not found for service rhobs").
Proof.
  apply (rhobs_hash_depends_on_service_name rhobs "rhobs"); reflexivity.
Defined.
